(** * napari-stream: wire codec, array discovery, listener loop and endpoints

    A shallow embedding of [src/napari_stream/_listener.py],
    [src/napari_stream/_utils.py], [src/napari_stream/sender.py] and the
    endpoint handling and layer creation of
    [src/napari_stream/_receiver_widget.py].

    Modelling choices.
    - A Python [float] is kept abstract ([pyfloat]): the code never computes
      with floats, it only passes them through [float()] (the identity on a
      float) and through JSON.
    - The JSON text of a header ([json.dumps(..).encode("utf-8")] on the
      sender, [json.loads(b.decode("utf-8"))] on the listener) is a pair of
      functions [json_dumps]/[json_loads] between JSON values and bytes;
      Python's round-trip contract for them is a hypothesis where used.
    - A numpy array is its shape, dtype, memory layout and its elements
      in memory order, each element the [itemsize] bytes numpy stores.
    - numpy is numpy 2 on a 64-bit platform: [npy_intp] is a 64-bit signed
      integer and an array has at most 64 axes. *)

From Stdlib Require Import List String Ascii ZArith Lia Bool.
From Stdlib.Init Require Import Byte.
Set Warnings "-register-all".
Import ListNotations.
Open Scope string_scope.

(** ** Results of Python code that may raise *)

Inductive pyexc :=
| KeyError (k : string)
| TypeError
| ValueError
| HeaderDecodeError   (* UnicodeDecodeError / JSONDecodeError of the header *)
| TransportError.     (* zmq.ZMQError other than zmq.Again *)

Inductive result (A : Type) :=
| Ok (a : A)
| Err (e : pyexc).
Arguments Ok {A} a.
Arguments Err {A} e.

Definition rbind {A B} (r : result A) (f : A -> result B) : result B :=
  match r with Ok a => f a | Err e => Err e end.

Notation "x <- r ;; k" := (rbind r (fun x => k))
  (at level 60, right associativity).

Definition is_err {A} (r : result A) : bool :=
  match r with Ok _ => false | Err _ => true end.

(** ** numpy dtypes (native byte order, numeric) *)

Inductive dtype :=
| DBool | DInt8 | DInt16 | DInt32 | DInt64
| DUInt8 | DUInt16 | DUInt32 | DUInt64
| DFloat16 | DFloat32 | DFloat64 | DComplex64 | DComplex128.

Definition itemsize (d : dtype) : nat :=
  match d with
  | DBool | DInt8 | DUInt8 => 1
  | DInt16 | DUInt16 | DFloat16 => 2
  | DInt32 | DUInt32 | DFloat32 => 4
  | DInt64 | DUInt64 | DFloat64 | DComplex64 => 8
  | DComplex128 => 16
  end.

(** [str(arr.dtype)] *)
Definition dtype_str (d : dtype) : string :=
  match d with
  | DBool => "bool" | DInt8 => "int8" | DInt16 => "int16"
  | DInt32 => "int32" | DInt64 => "int64"
  | DUInt8 => "uint8" | DUInt16 => "uint16" | DUInt32 => "uint32"
  | DUInt64 => "uint64"
  | DFloat16 => "float16" | DFloat32 => "float32" | DFloat64 => "float64"
  | DComplex64 => "complex64" | DComplex128 => "complex128"
  end.

Definition all_dtypes : list dtype :=
  [DBool; DInt8; DInt16; DInt32; DInt64; DUInt8; DUInt16; DUInt32; DUInt64;
   DFloat16; DFloat32; DFloat64; DComplex64; DComplex128].

(** [np.dtype(tag)] on the canonical names [str(dtype)] produces.  The other
    specifications numpy also accepts ("f4", "<i2", "float128", structured
    specs, ...) are not modelled: [dtype_of_tag] returns [None] on them. *)
Definition dtype_of_tag (s : string) : option dtype :=
  find (fun d => String.eqb (dtype_str d) s) all_dtypes.

(** ** Arrays *)

(** How the elements of an array sit in memory: C (row-major) contiguous,
    Fortran (column-major) contiguous, or neither, in which case the
    elements are listed in logical C order. *)
Inductive layout := LC | LF | LStrided.

Definition elem := list byte.

Record ndarray := mk_ndarray {
  a_shape : list nat;
  a_dtype : dtype;
  a_layout : layout;
  a_data : list elem   (* elements in memory order *)
}.

Definition prod (l : list nat) : nat := fold_right Nat.mul 1 l.

(** [NPY_MAX_INTP] and [NPY_MIN_INTP] on a 64-bit platform, and numpy 2's
    [NPY_MAXDIMS] (numpy 1.x has 32). *)
Definition NPY_MAX_INTP : Z := 9223372036854775807%Z.   (* 2^63 - 1 *)
Definition NPY_MIN_INTP : Z := (-9223372036854775808)%Z.  (* -2^63 *)
Definition NPY_MAXDIMS : nat := 64.

(** The product of the non-zero extents of a shape. *)
Definition nonzero_extent (sh : list nat) : Z :=
  fold_right Z.mul 1%Z (map Z.of_nat (filter (fun n => negb (Nat.eqb n 0)) sh)).

(** The size check of [PyArray_NewFromDescr]: [itemsize] times the non-zero
    extents must fit an [npy_intp] ("array is too big"). *)
Definition nbytes_fits (d : dtype) (sh : list nat) : bool :=
  Z.leb (Z.of_nat (itemsize d) * nonzero_extent sh) NPY_MAX_INTP.

(** An array as numpy can hold it: one element per multi-index, each of
    [itemsize] bytes, at most [NPY_MAXDIMS] axes, and a byte size that
    passes the check of [PyArray_NewFromDescr]. *)
Definition well_formed (a : ndarray) : Prop :=
  List.length (a_data a) = prod (a_shape a) /\
  Forall (fun e => List.length e = itemsize (a_dtype a)) (a_data a) /\
  (List.length (a_shape a) <= NPY_MAXDIMS)%nat /\
  nbytes_fits (a_dtype a) (a_shape a) = true.

(** numpy's contiguity flags: an array of size 0, or with at most one axis
    longer than 1, is both C- and F-contiguous. *)
Definition trivial_shape (sh : list nat) : bool :=
  existsb (Nat.eqb 0) sh || (List.length (filter (fun d => negb (Nat.eqb d 1)) sh) <=? 1)%nat.

Definition c_contiguous (a : ndarray) : bool :=
  match a_layout a with
  | LC => true | LF => trivial_shape (a_shape a) | LStrided => false
  end.

Definition f_contiguous (a : ndarray) : bool :=
  match a_layout a with
  | LF => true | LC => trivial_shape (a_shape a) | LStrided => false
  end.

(** [np.ascontiguousarray]: a C-ordered copy with the same logical elements. *)
Definition ascontiguousarray (a : ndarray) : ndarray :=
  match a_layout a with
  | LStrided => mk_ndarray (a_shape a) (a_dtype a) LC (a_data a)
  | _ => a
  end.

(** Multi-indices of a shape, in C order. *)
Fixpoint indices (sh : list nat) : list (list nat) :=
  match sh with
  | [] => [[]]
  | d :: ds => flat_map (fun i => map (cons i) (indices ds)) (seq 0 d)
  end.

(** Flat memory offset of a multi-index, row-major and column-major. *)
Fixpoint ravel_c (sh idx : list nat) : nat :=
  match sh, idx with
  | _ :: ds, i :: is => i * prod ds + ravel_c ds is
  | _, _ => 0
  end.

Fixpoint ravel_f (sh idx : list nat) : nat :=
  match sh, idx with
  | d :: ds, i :: is => i + d * ravel_f ds is
  | _, _ => 0
  end.

Definition zero_elem : elem := [].

(** The element at a multi-index. *)
Definition get (a : ndarray) (idx : list nat) : elem :=
  match a_layout a with
  | LF => nth (ravel_f (a_shape a) idx) (a_data a) zero_elem
  | _ => nth (ravel_c (a_shape a) idx) (a_data a) zero_elem
  end.

(** The logical elements in C order ([a.ravel(order="C")]). *)
Definition c_elements (a : ndarray) : list elem :=
  map (get a) (indices (a_shape a)).

(** Same shape, same dtype, same element values. *)
Definition same_array (a b : ndarray) : Prop :=
  a_shape a = a_shape b /\ a_dtype a = a_dtype b /\ c_elements a = c_elements b.

Section NapariStream.

(** A Python [float] value. *)
Context {pyfloat : Type}.

(** ** JSON values (what [json.loads] returns, what [json.dumps] accepts) *)

Inductive json :=
| JNull
| JBool (b : bool)
| JInt (z : Z)
| JFloat (f : pyfloat)
| JStr (s : string)
| JArr (l : list json)
| JObj (fields : list (string * json)).

(** [d.get(k)] on a dict; a dict built by the code or by [json.loads] has
    each key once. *)
Fixpoint dict_get {V} (k : string) (d : list (string * V)) : option V :=
  match d with
  | [] => None
  | (k', v) :: d' => if String.eqb k k' then Some v else dict_get k d'
  end.

(** [d[k]] *)
Definition dict_index {V} (k : string) (d : list (string * V)) : result V :=
  match dict_get k d with Some v => Ok v | None => Err (KeyError k) end.

(** ** [_from_bytes] *)

(** [np.frombuffer(buf, dtype=dtype)]: the buffer cut into elements. *)
Fixpoint chunks (n fuel : nat) (l : list byte) : list elem :=
  match fuel with
  | O => []
  | S fuel' =>
      match l with
      | [] => []
      | _ => firstn n l :: chunks n fuel' (skipn n l)
      end
  end.

Definition frombuffer (buf : list byte) (d : dtype) : result (list elem) :=
  if Nat.eqb (List.length buf mod itemsize d) 0
  then Ok (chunks (itemsize d) (List.length buf) buf)
  else Err ValueError.

(** [tuple(meta["shape"])]: the items of the JSON value (a string gives its
    characters, an object its keys). *)
Definition shape_items (j : json) : result (list json) :=
  match j with
  | JArr l => Ok l
  | JStr s => Ok (map (fun c => JStr (String c EmptyString)) (list_ascii_of_string s))
  | JObj fs => Ok (map (fun kv => JStr (fst kv)) fs)
  | _ => Err TypeError
  end.

(** [np.dtype(meta["dtype"])]; [np.dtype(None)] is float64.  Only the
    canonical names of [dtype_of_tag] are modelled: the other specifications
    numpy accepts ("f4", "<i2", "float128", "(2,)i4", ...) fall into the
    [None] case here, so what is proved about decoding holds for headers
    whose dtype is [null] or a canonical name. *)
Definition dtype_of_json (j : json) : result dtype :=
  match j with
  | JStr s => match dtype_of_tag s with Some d => Ok d | None => Err TypeError end
  | JNull => Ok DFloat64
  | _ => Err TypeError
  end.

Inductive order := OrdC | OrdF | OrdK.

(** [PyArray_OrderConverter] on the [order=] argument: one letter of C, F,
    A, K in either case; None keeps the default C.  "A" reads in F order
    only for an array that is F- but not C-contiguous, never the case for
    the 1-D result of [frombuffer]. *)
Definition order_of_json (j : json) : result order :=
  match j with
  | JNull => Ok OrdC
  | JStr s =>
      if existsb (String.eqb s) ["C"; "c"; "A"; "a"] then Ok OrdC
      else if existsb (String.eqb s) ["F"; "f"] then Ok OrdF
      else if existsb (String.eqb s) ["K"; "k"] then Ok OrdK
      else Err ValueError
  | _ => Err TypeError
  end.

(** [dimension_from_scalar] on a shape item: a Python int that fits an
    [npy_intp]; a bool or any other type is a TypeError, an int out of
    range an OverflowError that numpy turns into ValueError. *)
Definition dim_of_json (j : json) : result Z :=
  match j with
  | JInt z =>
      if Z.leb NPY_MIN_INTP z && Z.leb z NPY_MAX_INTP then Ok z else Err ValueError
  | _ => Err TypeError
  end.

Fixpoint map_result {A B} (f : A -> result B) (l : list A) : result (list B) :=
  match l with
  | [] => Ok []
  | x :: l' => y <- f x ;; ys <- map_result f l' ;; Ok (y :: ys)
  end.

(** The loop of numpy's [_fix_unknown_dimension]: a negative entry is the
    unknown one, a second one is an error; the other entries are multiplied
    into [s_known] with [npy_mul_sizes_with_overflow], an overflow being an
    error.  Returns whether an unknown entry was seen, and [s_known]. *)
Fixpoint scan_dims (unknown : bool) (s_known : Z) (dims : list Z) : result (bool * Z) :=
  match dims with
  | [] => Ok (unknown, s_known)
  | z :: dims' =>
      if Z.ltb z 0 then
        if unknown then Err ValueError else scan_dims true s_known dims'
      else if Z.ltb NPY_MAX_INTP (s_known * z) then Err ValueError
      else scan_dims unknown (s_known * z) dims'
  end.

(** [_fix_unknown_dimension] for an array of [n] elements: the unknown
    entry is inferred from [n]; without one the product must be [n]. *)
Definition fix_unknown (n : Z) (dims : list Z) : result (list nat) :=
  r <- scan_dims false 1%Z dims ;;
  let '(unknown, s_known) := r in
  if unknown then
    if Z.eqb s_known 0 || negb (Z.eqb (Z.modulo n s_known) 0) then Err ValueError
    else Ok (map (fun z => if Z.ltb z 0 then Z.to_nat (Z.div n s_known) else Z.to_nat z) dims)
  else if Z.eqb s_known n then Ok (map Z.to_nat dims) else Err ValueError.

(** [arr.reshape(shape, order=order)] on the 1-D array [flat]: the order
    is converted, then the shape ([PyArray_IntpConverter]: at most
    [NPY_MAXDIMS] items, each converted); [PyArray_Newshape] then refuses
    order K, fixes the unknown entry, and the new array passes the size
    check of [PyArray_NewFromDescr]. *)
Definition reshape (flat : list elem) (d : dtype) (items : list json) (ord : json)
  : result ndarray :=
  o <- order_of_json ord ;;
  if Nat.ltb NPY_MAXDIMS (List.length items) then Err ValueError else
  dims <- map_result dim_of_json items ;;
  lay <- match o with OrdC => Ok LC | OrdF => Ok LF | OrdK => Err ValueError end ;;
  sh <- fix_unknown (Z.of_nat (List.length flat)) dims ;;
  if nbytes_fits d sh then Ok (mk_ndarray sh d lay flat) else Err ValueError.

(** [_from_bytes(buf, meta)] *)
Definition from_bytes (buf : list byte) (meta : json) : result ndarray :=
  match meta with
  | JObj fs =>
      sj <- dict_index "shape" fs ;;
      items <- shape_items sj ;;
      dj <- dict_index "dtype" fs ;;
      d <- dtype_of_json dj ;;
      let ord := match dict_get "order" fs with Some o => o | None => JStr "C" end in
      flat <- frombuffer buf d ;;
      reshape flat d items ord
  | _ => Err TypeError   (* meta["shape"] on a list, str or number *)
  end.

(** ** The sender: [StreamSender._send_numpy] *)

(** [json.dumps(meta).encode("utf-8")] and [json.loads(b.decode("utf-8"))];
    [json_loads] is [None] where decoding or parsing raises. *)
Variable json_dumps : json -> list byte.
Variable json_loads : list byte -> option json.

(** The keyword arguments of [send]/[_send_numpy] besides [name].  Sequences
    of numbers are taken as lists of floats, on which [float()] is the
    identity. *)
Record display := mk_display {
  colormap : option string;
  contrast_limits : option (list pyfloat);
  rgb : option bool;
  affine : option (list (list pyfloat));
  scale : option (list pyfloat);
  translate : option (list pyfloat);
  opacity : option pyfloat;
  blending : option string;
  is_labels : bool
}.

Definition opt_field {T} (k : string) (enc : T -> json) (x : option T)
  : list (string * json) :=
  match x with Some v => [(k, enc v)] | None => [] end.

Definition floats_json (l : list pyfloat) : json := JArr (map JFloat l).

Definition matrix_json (m : list (list pyfloat)) : json := JArr (map floats_json m).

(** [np.asarray(affine, dtype=float).tolist()]: the identity on a rectangular
    nested list of floats; a ragged one raises. *)
Definition affine_tolist (m : list (list pyfloat)) : result (list (list pyfloat)) :=
  match m with
  | [] => Ok m
  | r :: _ =>
      if forallb (fun r' => Nat.eqb (List.length r') (List.length r)) m
      then Ok m else Err ValueError
  end.

Definition send_numpy (arr : ndarray) (name : option string) (o : display)
  : result (list (list byte)) :=
  let arr := if c_contiguous arr || f_contiguous arr then arr
             else ascontiguousarray arr in
  let ord := if f_contiguous arr then "F" else "C" in
  aff <- match affine o with
         | Some m => m' <- affine_tolist m ;; Ok (Some m')
         | None => Ok None
         end ;;
  let meta :=
    ([("shape", JArr (map (fun n => JInt (Z.of_nat n)) (a_shape arr)));
     ("dtype", JStr (dtype_str (a_dtype arr)));
     ("order", JStr ord);
     ("is_labels", JBool (is_labels o))]
    ++ opt_field "name" JStr name
    ++ opt_field "colormap" JStr (colormap o)
    ++ opt_field "contrast_limits" floats_json (contrast_limits o)
    ++ opt_field "rgb" JBool (rgb o)
    ++ opt_field "affine" matrix_json aff
    ++ opt_field "scale" floats_json (scale o)
    ++ opt_field "translate" floats_json (translate o)
    ++ opt_field "opacity" JFloat (opacity o)
    ++ opt_field "blending" JStr (blending o))%list in
  (* header, then memoryview(arr): the buffer in memory order *)
  Ok [json_dumps (JObj meta); List.concat (a_data arr)].

(** ** The listener's decoding of one received message
    ([header_b, payload = recv_multipart(); meta = json.loads(..);
      arr = _from_bytes(payload, meta)]) *)
Definition decode_message (parts : list (list byte)) : result (ndarray * json) :=
  match parts with
  | [header_b; payload] =>
      match json_loads header_b with
      | None => Err HeaderDecodeError
      | Some meta => arr <- from_bytes payload meta ;; Ok (arr, meta)
      end
  | _ => Err ValueError
  end.

(** ** Python values met by [retrieve_array_like], [is_arraylike], [_to_numpy] *)

(** What [np.asarray(x)] does on an object outside the cases below:
    returns a (non-object) array, returns an object-dtype array, or raises. *)
Inductive asarray_outcome :=
| AsArray (a : ndarray)
| AsObject
| AsRaise (e : pyexc).

(** Any other Python object (numpy scalars, torch tensors, zarr or blosc2
    arrays, user classes), described by what the code probes:
    [hasattr(x, "__array__")], [hasattr(x, "shape") and hasattr(x, "dtype")]
    and the outcome of [np.asarray(x)]. *)
Record pyobj := mk_pyobj {
  o_has_array : bool;
  o_has_shape_dtype : bool;
  o_asarray : asarray_outcome
}.

Inductive pykey := KStr (s : string) | KInt (z : Z).

Inductive pyval :=
| VNone
| VBool (b : bool)
| VInt (z : Z)
| VFloat (f : pyfloat)
| VStr (s : string)
| VBytes (bs : list byte)
| VList (l : list pyval)
| VTuple (l : list pyval)
| VDict (d : list (pykey * pyval))
| VSet (l : list pyval)
| VArray (a : ndarray)     (* np.ndarray *)
| VObj (o : pyobj).

(** The shape [np.asarray(x)] gives when its dtype is not [object] (numbers,
    strings and bytes are scalars, numpy arrays keep their shape, nested
    sequences must be rectangular); [None] when numpy makes an object array
    or raises (ragged nesting, [None], dicts, sets, ints beyond 64 bits). *)
Fixpoint np_shape (v : pyval) : option (list nat) :=
  match v with
  | VBool _ | VFloat _ | VStr _ | VBytes _ => Some []
  | VInt z =>
      if Z.leb (- 2 ^ 63) z && Z.ltb z (2 ^ 64) then Some [] else None
  | VArray a => Some (a_shape a)
  | VObj o => match o_asarray o with AsArray a => Some (a_shape a) | _ => None end
  | VList l | VTuple l =>
      match map np_shape l with
      | [] => Some [0]
      | None :: _ => None
      | Some s0 :: rest =>
          if forallb (fun s' => match s' with
                                | Some s1 => if list_eq_dec Nat.eq_dec s1 s0 then true else false
                                | None => false
                                end) rest
          then Some (List.length l :: s0) else None
      end
  | VNone | VDict _ | VSet _ => None
  end.

(** [StreamSender.is_arraylike] *)
Definition is_arraylike (v : pyval) : bool :=
  match v with
  | VStr _ | VBytes _ | VDict _ | VSet _ => false
  | VArray _ => true
  | VObj o => o_has_array o || o_has_shape_dtype o
  | VList _ | VTuple _ => match np_shape v with Some _ => true | None => false end
  | VNone | VBool _ | VInt _ | VFloat _ => false
  end.

(** Decimal text of an int, as [str(i)] and f-strings write it. *)
Definition digit_char (d : Z) : ascii := ascii_of_nat (48 + Z.to_nat d).

Fixpoint pos_digits (fuel : nat) (z : Z) (acc : string) : string :=
  match fuel with
  | O => acc
  | S fuel' =>
      let acc' := String (digit_char (Z.modulo z 10)) acc in
      if Z.eqb (Z.div z 10) 0 then acc' else pos_digits fuel' (Z.div z 10) acc'
  end.

Definition z_str (z : Z) : string :=
  match z with
  | Z0 => "0"
  | Zpos p => pos_digits (Pos.size_nat p) z ""
  | Zneg p => "-" ++ pos_digits (Pos.size_nat p) (Zpos p) ""
  end.

Definition key_str (k : pykey) : string :=
  match k with KStr s => s | KInt z => z_str z end.

(** [d[k] = v] on a dict: an existing key keeps its place. *)
Fixpoint dict_set {V} (d : list (string * V)) (k : string) (v : V) : list (string * V) :=
  match d with
  | [] => [(k, v)]
  | (k', v') :: d' =>
      if String.eqb k k' then (k', v) :: d' else (k', v') :: dict_set d' k v
  end.

(** [d.update(r)] *)
Definition dict_update {V} (d r : list (string * V)) : list (string * V) :=
  fold_left (fun acc kv => dict_set acc (fst kv) (snd kv)) r d.

(** [StreamSender.retrieve_array_like(name, obj)]: dicts and lists are
    searched, any other value is a leaf if array-like, else dropped. *)
Fixpoint retrieve_array_like (name : string) (v : pyval) {struct v}
  : list (string * pyval) :=
  match v with
  | VDict d =>
      (fix go (acc : list (string * pyval)) (d : list (pykey * pyval)) :=
         match d with
         | [] => acc
         | (k, x) :: d' =>
             go (dict_update acc
                   (retrieve_array_like (name ++ "[" ++ key_str k ++ "]") x)) d'
         end) [] d
  | VList l =>
      (fix go (acc : list (string * pyval)) (i : nat) (l : list pyval) :=
         match l with
         | [] => acc
         | x :: l' =>
             go (dict_update acc
                   (retrieve_array_like (name ++ "[" ++ z_str (Z.of_nat i) ++ "]") x))
                (S i) l'
         end) [] 0 l
  | _ => if is_arraylike v then [(name, v)] else []
  end.

(** numpy's conversion of a nested list or tuple that [np_shape] accepts
    (element values and dtype inference are numpy's business). *)
Variable np_asarray_seq : pyval -> ndarray.

(** [StreamSender._to_numpy].  The torch, blosc2 and zarr branches convert
    library arrays, which all expose [__array__]; they are covered by the
    generic branch with the library's conversion as [o_asarray]. *)
Definition to_numpy (v : pyval) : result ndarray :=
  match v with
  | VArray a => Ok a
  | VObj o =>
      if o_has_array o || o_has_shape_dtype o then
        match o_asarray o with
        | AsArray a => Ok a
        | AsRaise e => Err e          (* np.asarray raised: propagates *)
        | AsObject => Err TypeError   (* "Unsupported array type" *)
        end
      else Err TypeError
  | VList _ | VTuple _ =>
      match np_shape v with
      | Some _ => Ok (np_asarray_seq v)
      | None => Err TypeError
      end
  | _ => Err TypeError
  end.

(** Frames handed to the PUSH socket so far, oldest first. *)
Definition outbox := list (list (list byte)).

Fixpoint send_leaves (out : outbox) (leaves : list (string * pyval)) (o : display)
  : outbox * result unit :=
  match leaves with
  | [] => (out, Ok tt)
  | (path, x) :: rest =>
      match to_numpy x with
      | Err e => (out, Err e)
      | Ok a =>
          match send_numpy a (Some path) o with
          | Err e => (out, Err e)
          | Ok m => send_leaves (out ++ [m])%list rest o
          end
      end
  end.

(** [base = name or "array"] *)
Definition base_name (name : option string) : string :=
  match name with
  | Some s => if String.eqb s "" then "array" else s
  | None => "array"
  end.

(** [StreamSender.send(array, name=name, **display)] *)
Definition send (out : outbox) (v : pyval) (name : option string) (o : display)
  : outbox * result unit :=
  let base := base_name name in
  match v with
  | VDict _ | VList _ | VTuple _ => send_leaves out (retrieve_array_like base v) o
  | _ =>
      match to_numpy v with
      | Err e => (out, Err e)
      | Ok a =>
          match send_numpy a (Some base) o with
          | Err e => (out, Err e)
          | Ok m => ((out ++ [m])%list, Ok tt)
          end
      end
  end.

(** ** The listener: [ZMQImageListener.start] / [stop] *)

(** What one pass of [poller.poll(timeout=100)] and, when the socket is
    readable, [recv_multipart(flags=zmq.NOBLOCK)] yield; [EvStop] is a call
    of [stop()] from another thread, observed at the next loop check. *)
Inductive recv_outcome :=
| RecvMsg (parts : list (list byte))
| RecvAgain                 (* zmq.Again *)
| RecvFail (e : pyexc).     (* any other exception raised by recv_multipart *)

Inductive event :=
| EvTimeout                 (* no event within the 100 ms tick *)
| EvReady (r : recv_outcome)
| EvPollFail (e : pyexc)    (* poller.poll raised *)
| EvStop.

Inductive phase := Polling | Closed.

Record lstate := mk_lstate {
  l_phase : phase;
  l_received : list (ndarray * json);   (* received.emit(arr, meta) *)
  l_errors : list pyexc;                (* error.emit(repr(e)) *)
  l_status : list string                (* status.emit(...) *)
}.

Definition emit_error (st : lstate) (e : pyexc) : lstate :=
  mk_lstate (l_phase st) (l_received st) (l_errors st ++ [e])%list (l_status st).

Definition emit_status (st : lstate) (m : string) : lstate :=
  mk_lstate (l_phase st) (l_received st) (l_errors st) (l_status st ++ [m])%list.

Definition emit_received (st : lstate) (x : ndarray * json) : lstate :=
  mk_lstate (l_phase st) (l_received st ++ [x])%list (l_errors st) (l_status st).

(** [_teardown]: the socket is closed, the session ends. *)
Definition teardown (st : lstate) : lstate :=
  emit_status (mk_lstate Closed (l_received st) (l_errors st) (l_status st))
    "Listener stopped.".

(** [start()] up to the loop: the bind either succeeds or raises. *)
Definition start (endpoint : string) (bind_error : option pyexc) : lstate :=
  match bind_error with
  | None => mk_lstate Polling [] [] ["Listening on " ++ endpoint]
  | Some e => teardown (mk_lstate Polling [] [e] [])
  end.

(** The message of [stop()], "Stopping listener" and U+2026; status texts
    are kept as their UTF-8 bytes. *)
Definition stopping_msg : string :=
  "Stopping listener" ++
  String (ascii_of_nat 226) (String (ascii_of_nat 128) (String (ascii_of_nat 166) EmptyString)).

(** One iteration of [while self._running]; [EvStop] is a call of [stop()],
    which emits its status also once the loop has ended. *)
Definition step (st : lstate) (ev : event) : lstate :=
  match l_phase st with
  | Closed =>
      match ev with
      | EvStop => emit_status st stopping_msg
      | _ => st
      end
  | Polling =>
      match ev with
      | EvStop => teardown (emit_status st stopping_msg)
      | EvPollFail e => teardown (emit_error st e)   (* outer except *)
      | EvTimeout => st
      | EvReady RecvAgain => st
      | EvReady (RecvFail e) => emit_error st e      (* inner except *)
      | EvReady (RecvMsg parts) =>
          match decode_message parts with
          | Ok x => emit_received st x
          | Err e => emit_error st e                 (* inner except *)
          end
      end
  end.

Fixpoint run (st : lstate) (evs : list event) : lstate :=
  match evs with
  | [] => st
  | ev :: evs' => run (step st ev) evs'
  end.

End NapariStream.

Arguments json : clear implicits.
Arguments display : clear implicits.
Arguments pyobj : clear implicits.
Arguments asarray_outcome : clear implicits.
Arguments pyval : clear implicits.
Arguments lstate : clear implicits.
Arguments event : clear implicits.
Arguments recv_outcome : clear implicits.

(** ** Endpoint resolution ([_listener.py]; [_utils.py] holds the same
    [default_endpoint] and [_preferred_ip]) *)

(** What the host reports: [os.name], and the addresses returned by
    [socket.getaddrinfo(socket.gethostname(), None, family=AF_INET)]
    ([None] when either call raises). *)
Record platform := mk_platform {
  os_name : string;
  addr_infos : option (list string)
}.

Definition DEFAULT_TCP_PORT : Z := 5556.

(** [_preferred_ip()] *)
Definition preferred_ip (p : platform) : string :=
  match addr_infos p with
  | None => "127.0.0.1"
  | Some addrs =>
      match find (fun a => negb (String.prefix "127." a)) addrs with
      | Some a => a
      | None => "127.0.0.1"
      end
  end.

(** [default_endpoint(public)] *)
Definition default_endpoint (p : platform) (public : bool) : string :=
  if public then "tcp://" ++ preferred_ip p ++ ":" ++ z_str DEFAULT_TCP_PORT
  else if String.eqb (os_name p) "nt" then "tcp://127.0.0.1:" ++ z_str DEFAULT_TCP_PORT
  else "ipc:///tmp/napari_stream.sock".

(** [s.rsplit(":", 1)] when it yields two parts: split at the last colon. *)
Fixpoint rsplit_colon (l : list ascii) : option (list ascii * list ascii) :=
  match l with
  | [] => None
  | c :: l' =>
      match rsplit_colon l' with
      | Some (h, p) => Some (c :: h, p)
      | None => if Ascii.eqb c ":" then Some ([], l') else None
      end
  end.

(** [int(s)] on a str, base 10: surrounding whitespace, an optional sign,
    digits with single underscores between them. *)
Definition is_py_space (c : ascii) : bool :=
  let n := nat_of_ascii c in
  ((Nat.leb 9 n && Nat.leb n 13) || (Nat.leb 28 n && Nat.leb n 32)
   || Nat.eqb n 133 || Nat.eqb n 160).

Definition is_digit (c : ascii) : bool :=
  let n := nat_of_ascii c in Nat.leb 48 n && Nat.leb n 57.

Fixpoint drop_spaces (l : list ascii) : list ascii :=
  match l with
  | c :: l' => if is_py_space c then drop_spaces l' else l
  | [] => []
  end.

Definition strip (l : list ascii) : list ascii := rev (drop_spaces (rev (drop_spaces l))).

Fixpoint digits_value (l : list ascii) (acc : Z) (after_digit : bool) : option Z :=
  match l with
  | [] => if after_digit then Some acc else None
  | c :: l' =>
      if is_digit c then
        digits_value l' (acc * 10 + Z.of_nat (nat_of_ascii c - 48)) true
      else if Ascii.eqb c "_" && after_digit then digits_value l' acc false
      else None
  end.

Definition py_int (s : string) : option Z :=
  match strip (list_ascii_of_string s) with
  | c :: l =>
      if Ascii.eqb c "+" then digits_value l 0 false
      else if Ascii.eqb c "-" then option_map Z.opp (digits_value l 0 false)
      else digits_value (c :: l) 0 false
  | [] => None
  end.

(** [bind_endpoint_for_public(endpoint)] *)
Definition bind_endpoint_for_public (endpoint : string) : string :=
  if negb (String.prefix "tcp://" endpoint) then endpoint
  else
    let host_port := substring 6 (String.length endpoint - 6) endpoint in
    match rsplit_colon (list_ascii_of_string host_port) with
    | None => endpoint
    | Some (host, port) =>
        match py_int (string_of_list_ascii port) with
        | None => endpoint
        | Some port_int =>
            let host := string_of_list_ascii host in
            if String.eqb host "*" || String.eqb host "0.0.0.0" then endpoint
            else "tcp://*:" ++ z_str port_int
        end
    end.

(** [endpoint or default_endpoint()] in [StreamSender.__init__] and
    [ZMQImageListener.__init__]: no endpoint, or the empty one, means the
    non-public default. *)
Definition endpoint_or_default (p : platform) (endpoint : option string) : string :=
  match endpoint with
  | Some e => if String.eqb e "" then default_endpoint p false else e
  | None => default_endpoint p false
  end.

(** ** The receiver widget ([_receiver_widget.py]): its endpoint field *)

(** The endpoint field's text, [_last_auto_endpoint], and the "Enable public
    Access" checkbox. *)
Record wstate := mk_wstate {
  w_text : string;
  w_last_auto : string;
  w_public : bool
}.

(** [str.strip()] (the same whitespace as [int()] skips) *)
Definition strip_str (s : string) : string :=
  string_of_list_ascii (strip (list_ascii_of_string s)).

(** [ReceiverWidget.__init__] *)
Definition widget_init (p : platform) : wstate :=
  mk_wstate (default_endpoint p false) (default_endpoint p false) false.

(** [_on_public_toggled(checked)]; the checkbox already holds [checked]. *)
Definition on_public_toggled (p : platform) (st : wstate) (checked : bool) : wstate :=
  let suggested := default_endpoint p checked in
  let current := strip_str (w_text st) in
  mk_wstate (if String.eqb current (w_last_auto st) then suggested else w_text st)
    suggested checked.

(** [_resolve_endpoint_for_worker(endpoint)]: the endpoint to bind, and the
    widget afterwards. *)
Definition resolve_endpoint_for_worker (p : platform) (st : wstate) (endpoint : string)
  : string * wstate :=
  if negb (w_public st) then (endpoint, st)
  else if String.prefix "tcp://" endpoint then (bind_endpoint_for_public endpoint, st)
  else
    let fallback := default_endpoint p true in
    (bind_endpoint_for_public fallback, mk_wstate fallback fallback (w_public st)).

(** [_on_start]: the endpoint the new [ZMQImageListener(bind_endpoint)] binds
    to, and the widget afterwards. *)
Definition on_start (p : platform) (st : wstate) : string * wstate :=
  let endpoint := strip_str (w_text st) in
  let (bind_endpoint, st') := resolve_endpoint_for_worker p st endpoint in
  (endpoint_or_default p (Some bind_endpoint), st').

(** [_copy_endpoint]: the text put on the clipboard, for senders to use. *)
Definition copy_endpoint (st : wstate) : string := strip_str (w_text st).

(** What the user does to the field: toggle the checkbox, type a text, press
    Start. *)
Inductive wevent :=
| WToggle (checked : bool)
| WEdit (s : string)
| WStart.

Definition widget_step (p : platform) (st : wstate) (ev : wevent) : wstate :=
  match ev with
  | WToggle b => on_public_toggled p st b
  | WEdit s => mk_wstate s (w_last_auto st) (w_public st)
  | WStart => snd (on_start p st)
  end.

Fixpoint widget_run (p : platform) (st : wstate) (evs : list wevent) : wstate :=
  match evs with
  | [] => st
  | ev :: evs' => widget_run p (widget_step p st ev) evs'
  end.

(** ** The receiver widget: [_on_received(arr, meta)] *)

Section Receiver.

Context {pyfloat : Type}.

(** [bool(f)] on a float ([f != 0.0]), and whether [float(s)] accepts the
    string [s]. *)
Variable float_truthy : pyfloat -> bool.
Variable str_float_ok : string -> bool.

(** [bool(v)] on a JSON value *)
Definition py_truthy (j : json pyfloat) : bool :=
  match j with
  | JNull => false
  | JBool b => b
  | JInt z => negb (Z.eqb z 0)
  | JFloat f => float_truthy f
  | JStr s => negb (String.eqb s "")
  | JArr l => match l with [] => false | _ => true end
  | JObj fs => match fs with [] => false | _ => true end
  end.

(** The ints [float()] converts without OverflowError: those that do not
    round to 2^1024. *)
Definition FLOAT_INT_LIMIT : Z := (2 ^ 1024 - 2 ^ 970)%Z.

(** The shape of [np.asarray(j, dtype=float)]; [None] where it raises
    (a dict, an int too large, a string [float()] refuses, ragged nesting).
    numpy's limit on the number of dimensions is left out: it only matters
    for arrays of rank above 32, which [_on_received] ignores anyway. *)
Fixpoint float_shape (j : json pyfloat) : option (list nat) :=
  match j with
  | JNull | JBool _ | JFloat _ => Some []
  | JInt z => if Z.ltb (Z.abs z) FLOAT_INT_LIMIT then Some [] else None
  | JStr s => if str_float_ok s then Some [] else None
  | JObj _ => None
  | JArr l =>
      match map float_shape l with
      | [] => Some [0]
      | None :: _ => None
      | Some s0 :: rest =>
          if forallb (fun s' => match s' with
                                | Some s1 => if list_eq_dec Nat.eq_dec s1 s0 then true else false
                                | None => false
                                end) rest
          then Some (List.length l :: s0) else None
      end
  end.

(** A keyword argument handed to napari: the float array [A] made from the
    JSON value (with its shape), or the JSON value itself. *)
Inductive kwval :=
| KwAffine (j : json pyfloat) (sh : list nat)
| KwVal (j : json pyfloat).

(** The layer [_on_received] adds: [viewer.add_labels(arr, name=name, **kw)]
    or [viewer.add_image(arr, name=name, **kw)], the latter with whether the
    auto-contrast percentile step is attempted. *)
Inductive layer_call :=
| AddLabels (name : json pyfloat) (kw : list (string * kwval))
| AddImage (name : json pyfloat) (kw : list (string * kwval)) (autocontrast : bool).

(** [meta.get(k, default)] *)
Definition get_default (k : string) (fs : list (string * json pyfloat)) (d : json pyfloat)
  : json pyfloat :=
  match dict_get k fs with Some v => v | None => d end.

(** [for key in keys: if key in meta: viewer_kwargs[key] = meta[key]] *)
Definition copy_fields (fs : list (string * json pyfloat)) (keys : list string)
  : list (string * kwval) :=
  flat_map (fun k => match dict_get k fs with Some v => [(k, KwVal v)] | None => [] end)
    keys.

(** [ReceiverWidget._on_received(arr, meta)]; [autocontrast] is the state of
    the "Auto-contrast on new images" checkbox.  [meta] is a dict: the
    listener only emits headers [_from_bytes] accepted. *)
Definition on_received (autocontrast : bool) (fs : list (string * json pyfloat))
  : layer_call :=
  let name := get_default "name" fs (JStr "array") in
  let labels := py_truthy (get_default "is_labels" fs (JBool false)) in
  let aff :=
    match dict_get "affine" fs with
    | Some j =>
        match float_shape j with
        | Some [r; c] =>
            if Nat.eqb r c && Nat.leb 2 r then [("affine", KwAffine j [r; c])] else []
        | _ => []
        end
    | None => []
    end in
  let shared := (aff ++ copy_fields fs ["scale"; "translate"; "opacity"; "blending"])%list in
  if labels then AddLabels name shared
  else
    AddImage name (shared ++ copy_fields fs ["colormap"; "contrast_limits"; "rgb"])%list
      (autocontrast
       && match dict_get "contrast_limits" fs with None => true | Some _ => false end
       && negb (py_truthy (get_default "rgb" fs (JBool false)))).

End Receiver.

Arguments kwval : clear implicits.
Arguments layer_call : clear implicits.

(** * A concrete instance of the JSON text contract

    An injective byte encoding of JSON values (with floats carrying no
    information), with its decoder: it satisfies the contract
    [json_loads (json_dumps j) = Some j] that the round-trip theorem assumes
    of Python's [json] module, so that theorem can be run on concrete data. *)

Module WireCodec.

Fixpoint enc_pos (p : positive) : list byte :=
  match p with
  | xH => [x01]
  | xO p' => x02 :: enc_pos p'
  | xI p' => x03 :: enc_pos p'
  end.

Definition enc_Z (z : Z) : list byte :=
  match z with
  | Z0 => [x00]
  | Zpos p => x01 :: enc_pos p
  | Zneg p => x02 :: enc_pos p
  end.

Fixpoint enc_str (s : string) : list byte :=
  match s with
  | EmptyString => [x00]
  | String c s' => x01 :: byte_of_ascii c :: enc_str s'
  end.

Fixpoint enc (j : json unit) : list byte :=
  match j with
  | JNull => [x00]
  | JBool b => [x01; if b then x01 else x00]
  | JInt z => x02 :: enc_Z z
  | JFloat _ => [x03]
  | JStr s => x04 :: enc_str s
  | JArr l => x05 :: (List.concat (map (fun j' => x01 :: enc j') l) ++ [x00])%list
  | JObj fs =>
      x06 :: (List.concat (map (fun kv => x01 :: enc_str (fst kv) ++ enc (snd kv)) fs)
              ++ [x00])%list
  end.

Definition enc_items (l : list (json unit)) : list byte :=
  (List.concat (map (fun j' => x01 :: enc j') l) ++ [x00])%list.

Definition enc_fields (fs : list (string * json unit)) : list byte :=
  (List.concat (map (fun kv => x01 :: enc_str (fst kv) ++ enc (snd kv)) fs) ++ [x00])%list.

Fixpoint dec_pos (l : list byte) : option (positive * list byte) :=
  match l with
  | x01 :: r => Some (xH, r)
  | x02 :: r => match dec_pos r with Some (p, r') => Some (xO p, r') | None => None end
  | x03 :: r => match dec_pos r with Some (p, r') => Some (xI p, r') | None => None end
  | _ => None
  end.

Definition dec_Z (l : list byte) : option (Z * list byte) :=
  match l with
  | x00 :: r => Some (Z0, r)
  | x01 :: r => match dec_pos r with Some (p, r') => Some (Zpos p, r') | None => None end
  | x02 :: r => match dec_pos r with Some (p, r') => Some (Zneg p, r') | None => None end
  | _ => None
  end.

Fixpoint dec_str (l : list byte) : option (string * list byte) :=
  match l with
  | x00 :: r => Some (EmptyString, r)
  | x01 :: b :: r =>
      match dec_str r with
      | Some (s, r') => Some (String (ascii_of_byte b) s, r')
      | None => None
      end
  | _ => None
  end.

Fixpoint dec (fuel : nat) (l : list byte) {struct fuel} : option (json unit * list byte) :=
  match fuel with
  | O => None
  | S f =>
      match l with
      | x00 :: r => Some (JNull, r)
      | x01 :: x01 :: r => Some (JBool true, r)
      | x01 :: x00 :: r => Some (JBool false, r)
      | x02 :: r => match dec_Z r with Some (z, r') => Some (JInt z, r') | None => None end
      | x03 :: r => Some (JFloat tt, r)
      | x04 :: r => match dec_str r with Some (s, r') => Some (JStr s, r') | None => None end
      | x05 :: r => match dec_items f r with Some (js, r') => Some (JArr js, r') | None => None end
      | x06 :: r => match dec_fields f r with Some (fs, r') => Some (JObj fs, r') | None => None end
      | _ => None
      end
  end
with dec_items (fuel : nat) (l : list byte) {struct fuel}
  : option (list (json unit) * list byte) :=
  match fuel with
  | O => None
  | S f =>
      match l with
      | x00 :: r => Some ([], r)
      | x01 :: r =>
          match dec f r with
          | Some (j, r2) =>
              match dec_items f r2 with
              | Some (js, r3) => Some (j :: js, r3)
              | None => None
              end
          | None => None
          end
      | _ => None
      end
  end
with dec_fields (fuel : nat) (l : list byte) {struct fuel}
  : option (list (string * json unit) * list byte) :=
  match fuel with
  | O => None
  | S f =>
      match l with
      | x00 :: r => Some ([], r)
      | x01 :: r =>
          match dec_str r with
          | Some (k, r1) =>
              match dec f r1 with
              | Some (j, r2) =>
                  match dec_fields f r2 with
                  | Some (fs, r3) => Some ((k, j) :: fs, r3)
                  | None => None
                  end
              | None => None
              end
          | None => None
          end
      | _ => None
      end
  end.

Definition dumps (j : json unit) : list byte := enc j.

Definition loads (l : list byte) : option (json unit) :=
  match dec (S (List.length l)) l with
  | Some (j, []) => Some j
  | _ => None
  end.

End WireCodec.

(** * Example inputs *)

Definition ex_arr : ndarray :=
  mk_ndarray [2; 2] DUInt16 LF [[x01; x00]; [x02; x00]; [x03; x00]; [x04; x00]].

Definition ex_display : display unit :=
  @mk_display unit (Some "gray") (Some [tt; tt]) (Some false)
    (Some [[tt; tt]; [tt; tt]]) (Some [tt; tt]) (Some [tt; tt]) (Some tt)
    (Some "additive") true.

Definition ex_hdr : json unit :=
  JObj [("shape", JArr [JInt 2%Z; JInt 3%Z]); ("dtype", JStr "uint16");
        ("order", JStr "F")].

Definition ex_payload : list byte :=
  [x00; x01; x02; x03; x04; x05; x06; x07; x08; x09; x0a; x0b].

Definition ex_hdr_noshape : json unit := JObj [("dtype", JStr "uint8")].

Definition ex_hdr_nodtype : json unit := JObj [("shape", JArr [JInt 1%Z])].

Definition ex_hdr_inferred : json unit :=
  JObj [("shape", JArr [JInt (-1)%Z]); ("dtype", JStr "uint8")].

Definition ex_hdr_order_K : json unit :=
  JObj [("shape", JArr [JInt 2%Z]); ("dtype", JStr "uint8"); ("order", JStr "K")].

Definition ex_hdr_too_big : json unit :=
  JObj [("shape", JArr [JInt (2 ^ 40)%Z; JInt (2 ^ 40)%Z; JInt 0%Z]); ("dtype", JStr "uint8")].

Definition ex_hdr_scalar : json unit :=
  JObj [("shape", JArr []); ("dtype", JStr "uint8")].

Definition ex_fields_noorder : list (string * json unit) :=
  [("shape", JArr [JInt 2%Z]); ("dtype", JStr "uint8")].

Definition ex_arr3 : ndarray := mk_ndarray [3] DUInt8 LC [[x01]; [x02]; [x03]].

(** An object with [shape] and [dtype] attributes whose [np.asarray] is an
    object array. *)
Definition ex_obj_object : pyobj := mk_pyobj false true AsObject.

Definition ex_leaves : pyval unit := VList [VArray ex_arr; VObj ex_obj_object].

Definition ex_bad_frame : list (list byte) := [[x00]].

(** * Specification predicates *)

Open Scope nat_scope.
Open Scope list_scope.

(** The documented optional header fields, for an array of rank [rank]:
    [affine] a square matrix of side at least 2, [contrast_limits] two
    floats, [scale] and [translate] one float per axis. *)
Definition documented_display {F} (rank : nat) (o : display F) : Prop :=
  (forall m, affine o = Some m ->
     2 <= List.length m /\ Forall (fun r => List.length r = List.length m) m) /\
  (forall c, contrast_limits o = Some c -> List.length c = 2) /\
  (forall s, scale o = Some s -> List.length s = rank) /\
  (forall t, translate o = Some t -> List.length t = rank).

(** A field present in the metadata is in the header map with its value. *)
Definition kept {F T} (fs : list (string * json F)) (k : string) (enc : T -> json F)
  (x : option T) : Prop :=
  forall v, x = Some v -> dict_get k fs = Some (enc v).

Definition header_keeps {F} (meta : json F) (name : option string) (o : display F)
  : Prop :=
  match meta with
  | JObj fs =>
      kept fs "name" JStr name /\
      kept fs "colormap" JStr (colormap o) /\
      kept fs "contrast_limits" floats_json (contrast_limits o) /\
      kept fs "rgb" JBool (rgb o) /\
      kept fs "affine" matrix_json (affine o) /\
      kept fs "scale" floats_json (scale o) /\
      kept fs "translate" floats_json (translate o) /\
      kept fs "opacity" JFloat (opacity o) /\
      kept fs "blending" JStr (blending o) /\
      dict_get "is_labels" fs = Some (JBool (is_labels o))
  | _ => False
  end.

(** What the listener reports to its error signal in one tick. *)
Definition tick_errors {F} (loads : list byte -> option (json F)) (ev : event)
  : list pyexc :=
  match ev with
  | EvReady (RecvFail e) => [e]
  | EvReady (RecvMsg parts) =>
      match decode_message loads parts with Ok _ => [] | Err e => [e] end
  | _ => []
  end.

(** Endpoint families, as the spec names them: network ([tcp://host:port])
    or local-machine (filesystem-backed [ipc://path]). *)
Inductive family := FamNetwork | FamLocal | FamOther.

Definition endpoint_family (s : string) : family :=
  if String.prefix "tcp://" s then FamNetwork
  else if String.prefix "ipc://" s then FamLocal
  else FamOther.

(** Host and port of a network endpoint: split at the last colon after the
    scheme, the port read as an integer. *)
Definition endpoint_host (s : string) : option string :=
  if String.prefix "tcp://" s then
    match rsplit_colon (list_ascii_of_string (substring 6 (String.length s - 6) s)) with
    | Some (h, _) => Some (string_of_list_ascii h)
    | None => None
    end
  else None.

Definition endpoint_port (s : string) : option Z :=
  if String.prefix "tcp://" s then
    match rsplit_colon (list_ascii_of_string (substring 6 (String.length s - 6) s)) with
    | Some (_, p) => py_int (string_of_list_ascii p)
    | None => None
    end
  else None.

(** A leaf [(path, x)] that is converted and encoded into the frame [m]. *)
Definition leaf_sent {F} (dumps : json F -> list byte) (asq : pyval F -> ndarray)
  (o : display F) (px : string * pyval F) (m : list (list byte)) : Prop :=
  exists a, to_numpy asq (snd px) = Ok a /\ send_numpy dumps a (Some (fst px)) o = Ok m.

Definition no_colon (c : ascii) : bool := negb (Ascii.eqb c ":").

(** A matrix whose rows all have the length of the first. *)
Definition rectangular {T} (m : list (list T)) : Prop :=
  match m with
  | [] => True
  | r0 :: _ => Forall (fun r => List.length r = List.length r0) m
  end.

(** The header key written for an optional field, when given. *)
Definition opt_key {T} (k : string) (x : option T) : list string :=
  match x with Some _ => [k] | None => [] end.

(** What the listener hands to its [received] signal in one tick. *)
Definition tick_received {F} (loads : list byte -> option (json F)) (ev : event)
  : list (ndarray * json F) :=
  match ev with
  | EvReady (RecvMsg parts) =>
      match decode_message loads parts with Ok x => [x] | Err _ => [] end
  | _ => []
  end.

(** [d.update(r)] for dicts [d] and [r], written out: every key of [d]
    keeps its place and takes [r]'s value when [r] has the key; the keys
    only [r] has follow, in [r]'s order. *)
Definition merged {V} (d r : list (string * V)) : list (string * V) :=
  map (fun kv => (fst kv, match dict_get (fst kv) r with Some v => v | None => snd kv end)) d ++
  filter (fun kv => negb (existsb (String.eqb (fst kv)) (map fst d))) r.

(** The number of [stop()] calls among some events. *)
Definition stops (evs : list event) : nat :=
  List.length (filter (fun ev => match ev with EvStop => true | _ => false end) evs).

(** The keyword argument napari gets for an optional field, when given. *)
Definition opt_kw {F T} (k : string) (enc : T -> json F) (x : option T)
  : list (string * kwval F) :=
  match x with Some v => [(k, KwVal (enc v))] | None => [] end.

(** The affine keyword napari gets for a rectangular matrix: only a square
    one of side at least 2. *)
Definition affine_kw {F} (x : option (list (list F))) : list (string * kwval F) :=
  match x with
  | Some ((r0 :: _) as m) =>
      if Nat.eqb (List.length m) (List.length r0) && Nat.leb 2 (List.length m)
      then [("affine", KwAffine (matrix_json m) [List.length m; List.length m])]
      else []
  | _ => []
  end.

(** A network endpoint bound on every interface, at port [port]. *)
Definition binds_all_interfaces (e : string) (port : Z) : Prop :=
  endpoint_port e = Some port /\
  (endpoint_host e = Some "*"%string \/ endpoint_host e = Some "0.0.0.0"%string).

Definition layer_kwargs {F} (c : layer_call F) : list (string * kwval F) :=
  match c with AddLabels _ kw => kw | AddImage _ kw _ => kw end.

Definition allowed_keys {F} (c : layer_call F) : list string :=
  match c with
  | AddLabels _ _ => ["affine"; "scale"; "translate"; "opacity"; "blending"]
  | AddImage _ _ _ => ["affine"; "scale"; "translate"; "opacity"; "blending";
                       "colormap"; "contrast_limits"; "rgb"]
  end.

(** * Properties *)

Section Proofs.

Context {F : Type}.
Local Open Scope list_scope.

(** ** Arrays and their memory order *)

Lemma itemsize_pos d : 0 < itemsize d.
Proof. destruct d; simpl; lia. Qed.

Lemma dtype_of_tag_str d : dtype_of_tag (dtype_str d) = Some d.
Proof. destruct d; reflexivity. Qed.

Lemma length_concat_uniform (n : nat) (data : list elem) :
  Forall (fun e => List.length e = n) data ->
  List.length (List.concat data) = List.length data * n.
Proof.
  induction 1 as [|e data He _ IH]; simpl; [reflexivity|].
  rewrite length_app, IH, He. lia.
Qed.

Lemma chunks_concat (n : nat) (data : list elem) (fuel : nat) :
  0 < n -> Forall (fun e => List.length e = n) data ->
  List.length (List.concat data) <= fuel ->
  chunks n fuel (List.concat data) = data.
Proof.
  intros Hn Hall. revert fuel.
  induction Hall as [|e data He Hall IH]; intros fuel Hfuel.
  - destruct fuel; reflexivity.
  - simpl in Hfuel |- *. rewrite length_app in Hfuel.
    destruct fuel as [|fuel]; [lia|]. cbn [chunks].
    destruct (e ++ List.concat data) as [|b l] eqn:E.
    + apply app_eq_nil in E as [-> _]. simpl in He. lia.
    + rewrite <- E. f_equal.
      * rewrite firstn_app, He, Nat.sub_diag, firstn_O, app_nil_r.
        apply firstn_all2. lia.
      * rewrite skipn_app, He, Nat.sub_diag, skipn_O, skipn_all2 by lia.
        apply IH. lia.
Qed.

Lemma frombuffer_concat (data : list elem) d :
  Forall (fun e => List.length e = itemsize d) data ->
  frombuffer (List.concat data) d = Ok data.
Proof.
  intros Hall. unfold frombuffer.
  rewrite (length_concat_uniform _ _ Hall), Nat.Div0.mod_mul, Nat.eqb_refl.
  f_equal. apply chunks_concat; [apply itemsize_pos|exact Hall|].
  rewrite (length_concat_uniform _ _ Hall). lia.
Qed.

Lemma indices_zero sh : In 0 sh -> indices sh = [].
Proof.
  induction sh as [|d ds IH]; simpl; [tauto|].
  intros [->|H]; [reflexivity|].
  rewrite (IH H). induction (seq 0 d); simpl; auto.
Qed.

Lemma in_indices sh idx :
  In idx (indices sh) -> Forall2 (fun i d => i < d) idx sh.
Proof.
  revert idx; induction sh as [|d ds IH]; simpl; intros idx H.
  - destruct H as [<-|[]]. constructor.
  - apply in_flat_map in H as [i [Hi Hidx]].
    apply in_map_iff in Hidx as [is [<- His]].
    apply in_seq in Hi. constructor; [lia|]. apply IH, His.
Qed.

Lemma ravel_ones ds is :
  Forall (fun d => d = 1) ds -> Forall2 (fun i d => i < d) is ds ->
  ravel_c ds is = 0 /\ ravel_f ds is = 0 /\ prod ds = 1.
Proof.
  intros H1 H2. induction H2 as [|i d is ds Hi H2 IH]; simpl; [auto|].
  inversion H1 as [|? ? Hd H1']; subst.
  destruct (IH H1') as [A [B C]]. rewrite A, B, C.
  assert (i = 0) by lia. subst. simpl. lia.
Qed.

Lemma filter_not_one ds :
  List.length (filter (fun d => negb (Nat.eqb d 1)) ds) = 0 ->
  Forall (fun d => d = 1) ds.
Proof.
  induction ds as [|d ds IH]; simpl; [constructor|].
  destruct (Nat.eqb_spec d 1); simpl; [|discriminate].
  intros H. constructor; auto.
Qed.

(** With at most one axis longer than 1, row-major and column-major offsets
    agree on every valid multi-index. *)
Lemma ravel_f_c_trivial sh idx :
  List.length (filter (fun d => negb (Nat.eqb d 1)) sh) <= 1 ->
  Forall2 (fun i d => i < d) idx sh -> ravel_f sh idx = ravel_c sh idx.
Proof.
  intros Hcnt H2. induction H2 as [|i d is ds Hi H2 IH]; simpl; [reflexivity|].
  simpl in Hcnt. destruct (Nat.eqb_spec d 1) as [->|Hd]; simpl in Hcnt.
  - assert (i = 0) by lia. subst. rewrite IH by lia. lia.
  - assert (Hones : Forall (fun d => d = 1) ds) by (apply filter_not_one; lia).
    destruct (ravel_ones ds is Hones H2) as [A [B C]]. rewrite A, B, C. lia.
Qed.

Lemma trivial_ravel sh idx :
  trivial_shape sh = true -> In idx (indices sh) -> ravel_f sh idx = ravel_c sh idx.
Proof.
  unfold trivial_shape. intros Ht Hin. apply orb_true_iff in Ht as [Hz|Hc].
  - apply existsb_exists in Hz as [z [Hz Hz0]]. apply Nat.eqb_eq in Hz0. subst z.
    rewrite (indices_zero sh Hz) in Hin. destruct Hin.
  - apply ravel_f_c_trivial; [apply Nat.leb_le, Hc|apply in_indices, Hin].
Qed.

Lemma c_elements_F_as_C sh d data :
  trivial_shape sh = true ->
  c_elements (mk_ndarray sh d LF data) = c_elements (mk_ndarray sh d LC data).
Proof.
  intros Ht. unfold c_elements, get; simpl.
  apply map_ext_in. intros idx Hin. rewrite (trivial_ravel sh idx Ht Hin). reflexivity.
Qed.

Lemma nonzero_extent_cons x sh :
  nonzero_extent (x :: sh) =
  if Nat.eqb x 0 then nonzero_extent sh else (Z.of_nat x * nonzero_extent sh)%Z.
Proof. unfold nonzero_extent. cbn [filter]. destruct (Nat.eqb x 0); reflexivity. Qed.

Lemma nonzero_extent_pos sh : (1 <= nonzero_extent sh)%Z.
Proof.
  induction sh as [|x sh IH]; [cbn; lia|]. rewrite nonzero_extent_cons.
  destruct (Nat.eqb_spec x 0); [exact IH|nia].
Qed.

Lemma nbytes_fits_extent d sh :
  nbytes_fits d sh = true -> (nonzero_extent sh <= NPY_MAX_INTP)%Z.
Proof.
  unfold nbytes_fits. intros H. apply Z.leb_le in H.
  pose proof (itemsize_pos d). pose proof (nonzero_extent_pos sh). nia.
Qed.

(** On the entries of a shape numpy can hold, the loop of
    [_fix_unknown_dimension] meets no unknown entry and no overflow. *)
Lemma scan_nat (acc : Z) sh :
  (0 <= acc)%Z -> (acc * nonzero_extent sh <= NPY_MAX_INTP)%Z ->
  scan_dims false acc (map Z.of_nat sh) = Ok (false, (acc * Z.of_nat (prod sh))%Z).
Proof.
  revert acc. induction sh as [|x sh IH]; intros acc H0 Hb; cbn [map scan_dims].
  - cbn. rewrite Z.mul_1_r. reflexivity.
  - rewrite nonzero_extent_cons in Hb. pose proof (nonzero_extent_pos sh) as Hp.
    change (prod (x :: sh)) with (x * prod sh). rewrite Nat2Z.inj_mul.
    destruct (Z.ltb_spec (Z.of_nat x) 0); [lia|].
    destruct (Nat.eqb x 0) eqn:Ex; [apply Nat.eqb_eq in Ex; subst x|apply Nat.eqb_neq in Ex].
    + cbn [Z.of_nat]. rewrite Z.mul_0_r.
      destruct (Z.ltb_spec NPY_MAX_INTP 0); [unfold NPY_MAX_INTP in *; lia|].
      rewrite IH by (cbn; lia). f_equal. f_equal. lia.
    + destruct (Z.ltb_spec NPY_MAX_INTP (acc * Z.of_nat x)); [nia|].
      rewrite IH by nia. f_equal. f_equal. ring.
Qed.

Lemma fix_unknown_nat_eq n sh :
  (nonzero_extent sh <= NPY_MAX_INTP)%Z ->
  fix_unknown (Z.of_nat n) (map Z.of_nat sh) =
  if Nat.eqb (prod sh) n then Ok sh else Err ValueError.
Proof.
  intros Hb. unfold fix_unknown. rewrite scan_nat by lia. cbn [rbind].
  rewrite Z.mul_1_l. destruct (Nat.eqb_spec (prod sh) n) as [<-|Hne].
  - rewrite Z.eqb_refl. f_equal.
    rewrite map_map. erewrite map_ext; [apply map_id|]. intros x. apply Nat2Z.id.
  - destruct (Z.eqb_spec (Z.of_nat (prod sh)) (Z.of_nat n)); [lia|reflexivity].
Qed.

(** The entries of a shape numpy can hold convert without error. *)
Lemma dims_in_range sh :
  (nonzero_extent sh <= NPY_MAX_INTP)%Z ->
  map_result dim_of_json (map (fun n => @JInt F (Z.of_nat n)) sh) = Ok (map Z.of_nat sh).
Proof.
  induction sh as [|x sh IH]; intros Hb; [reflexivity|].
  rewrite nonzero_extent_cons in Hb. pose proof (nonzero_extent_pos sh).
  assert (Hx : (Z.of_nat x <= NPY_MAX_INTP)%Z /\ (nonzero_extent sh <= NPY_MAX_INTP)%Z).
  { destruct (Nat.eqb x 0) eqn:Ex; [apply Nat.eqb_eq in Ex; subst x|apply Nat.eqb_neq in Ex];
      unfold NPY_MAX_INTP in *; nia. }
  destruct Hx as [Hx Hs]. cbn [map map_result dim_of_json].
  replace (Z.leb NPY_MIN_INTP (Z.of_nat x) && Z.leb (Z.of_nat x) NPY_MAX_INTP) with true
    by (symmetry; apply andb_true_iff; split; apply Z.leb_le; unfold NPY_MIN_INTP; lia).
  cbn [rbind]. rewrite (IH Hs). reflexivity.
Qed.

(** [arr.reshape] of a flat array to a shape numpy can hold, written as a
    list of ints, with order C, F or A: it succeeds exactly when the
    element counts agree. *)
Lemma reshape_nat flat d sh (ord : json F) o :
  order_of_json ord = Ok o -> o <> OrdK ->
  (List.length sh <= NPY_MAXDIMS)%nat -> nbytes_fits d sh = true ->
  reshape flat d (map (fun n => JInt (Z.of_nat n)) sh) ord =
  if Nat.eqb (prod sh) (List.length flat)
  then Ok (mk_ndarray sh d (match o with OrdF => LF | _ => LC end) flat)
  else Err ValueError.
Proof.
  intros Ho HK Hdim Hfit. unfold reshape. rewrite Ho. cbn [rbind].
  rewrite length_map.
  replace (Nat.ltb NPY_MAXDIMS (List.length sh)) with false
    by (symmetry; apply Nat.ltb_ge; exact Hdim).
  rewrite dims_in_range by (apply (nbytes_fits_extent d), Hfit). cbn [rbind].
  destruct o; [| |contradiction]; cbn [rbind];
    rewrite fix_unknown_nat_eq by (apply (nbytes_fits_extent d), Hfit);
    destruct (Nat.eqb (prod sh) (List.length flat)); cbn [rbind]; rewrite ?Hfit; reflexivity.
Qed.

Lemma from_bytes_encoded sh d data (fortran : bool) (extra : list (string * json F)) :
  List.length data = prod sh ->
  Forall (fun e => List.length e = itemsize d) data ->
  (List.length sh <= NPY_MAXDIMS)%nat -> nbytes_fits d sh = true ->
  from_bytes (List.concat data)
    (JObj (("shape", JArr (map (fun n => JInt (Z.of_nat n)) sh)) ::
           ("dtype", JStr (dtype_str d)) ::
           ("order", JStr (if fortran then "F" else "C")) :: extra))
  = Ok (mk_ndarray sh d (if fortran then LF else LC) data).
Proof.
  intros Hlen Hall Hdim Hfit. unfold from_bytes.
  cbn -[frombuffer reshape dtype_of_tag]. rewrite dtype_of_tag_str.
  cbn -[frombuffer reshape]. rewrite (frombuffer_concat _ _ Hall). cbn [rbind].
  rewrite (reshape_nat _ _ _ _ (if fortran then OrdF else OrdC));
    [|destruct fortran; reflexivity|destruct fortran; discriminate|exact Hdim|exact Hfit].
  rewrite <- Hlen, Nat.eqb_refl. destruct fortran; reflexivity.
Qed.

Lemma affine_tolist_square (m : list (list F)) :
  Forall (fun r => List.length r = List.length m) m -> affine_tolist m = Ok m.
Proof.
  intros H. destruct m as [|r m']; [reflexivity|]. unfold affine_tolist.
  inversion H as [|? ? Hr _]; subst.
  replace (forallb _ _) with true; [reflexivity|]. symmetry. apply forallb_forall.
  intros x Hx. rewrite Forall_forall in H. rewrite (H x Hx), Hr. apply Nat.eqb_refl.
Qed.

Lemma dict_get_app {V} k (l1 l2 : list (string * V)) :
  dict_get k (l1 ++ l2) =
  match dict_get k l1 with Some v => Some v | None => dict_get k l2 end.
Proof.
  induction l1 as [|[k' v'] l1 IH]; simpl; auto. destruct (String.eqb k k'); auto.
Qed.

Lemma dict_get_opt_other {T} k k' (enc : T -> json F) x :
  String.eqb k k' = false -> dict_get k (opt_field k' enc x) = None.
Proof. intros H. destruct x; simpl; [rewrite H|]; reflexivity. Qed.

Lemma dict_get_opt_same {T} k (enc : T -> json F) v :
  dict_get k (opt_field k enc (Some v)) = Some (enc v).
Proof. simpl. rewrite String.eqb_refl. reflexivity. Qed.

Ltac find_field :=
  cbn -[app opt_field];
  repeat rewrite dict_get_app;
  rewrite ?dict_get_opt_other by reflexivity;
  rewrite ?dict_get_opt_same; reflexivity.

(** ** Decoding: what [_from_bytes] checks *)


Lemma chunks_app_inv n fuel l :
  0 < n -> List.length l <= fuel -> List.concat (chunks n fuel l) = l.
Proof.
  intros Hn. revert l. induction fuel as [|fuel IH]; intros l Hl.
  - destruct l; simpl in *; [reflexivity|lia].
  - destruct l as [|b l']; [reflexivity|].
    cbn [chunks List.concat]. rewrite IH; [apply firstn_skipn|].
    rewrite length_skipn. cbn [List.length] in Hl |- *. lia.
Qed.

Lemma chunks_uniform n fuel l :
  0 < n -> List.length l mod n = 0 ->
  Forall (fun e => List.length e = n) (chunks n fuel l).
Proof.
  intros Hn. revert l. induction fuel as [|fuel IH]; intros l Hmod; [constructor|].
  destruct l as [|b l']; [constructor|].
  remember (b :: l') as l eqn:Heql.
  assert (Hq := Nat.div_mod_eq (List.length l) n). rewrite Hmod in Hq.
  assert (Hpos : 1 <= List.length l) by (subst l; simpl; lia).
  remember (List.length l / n) as q eqn:Eq. clear Eq.
  destruct q as [|q]; [lia|].
  subst l. cbn [chunks]. constructor.
  - rewrite length_firstn. lia.
  - apply IH. rewrite length_skipn.
    replace (List.length (b :: l') - n) with (q * n) by nia.
    apply Nat.Div0.mod_mul.
Qed.

Lemma frombuffer_ok buf d flat :
  frombuffer buf d = Ok flat ->
  List.concat flat = buf /\ Forall (fun e => List.length e = itemsize d) flat /\
  List.length flat * itemsize d = List.length buf.
Proof.
  unfold frombuffer. destruct (Nat.eqb_spec (List.length buf mod itemsize d) 0) as [Hm|];
    [|discriminate].
  intros H. injection H as <-. pose proof (itemsize_pos d) as Hn.
  assert (Hc := chunks_app_inv (itemsize d) (List.length buf) buf Hn (le_n _)).
  assert (Hu := chunks_uniform (itemsize d) (List.length buf) buf Hn Hm).
  split; [exact Hc|split; [exact Hu|]].
  rewrite <- (length_concat_uniform _ _ Hu), Hc. reflexivity.
Qed.

Lemma frombuffer_length buf d :
  List.length buf mod itemsize d = 0 ->
  exists flat, frombuffer buf d = Ok flat /\
    List.length flat * itemsize d = List.length buf.
Proof.
  intros Hm. unfold frombuffer. rewrite Hm. cbn.
  eexists; split; [reflexivity|].
  destruct (frombuffer_ok buf d (chunks (itemsize d) (List.length buf) buf)) as (_ & _ & H);
    [unfold frombuffer; rewrite Hm; reflexivity|exact H].
Qed.


(** The shape [fix_unknown] settles on always accounts for every element. *)
Lemma prod_fill (q : nat) (dims : list Z) :
  Z.of_nat (prod (map (fun z => if Z.ltb z 0 then q else Z.to_nat z) dims)) =
  (Z.of_nat q ^ Z.of_nat (List.length (filter (fun z => Z.ltb z 0) dims)) *
   fold_right Z.mul 1 (filter (fun z => Z.leb 0 z) dims))%Z.
Proof.
  induction dims as [|z dims IH]; [reflexivity|].
  cbn [map prod fold_right filter].
  destruct (Z.ltb_spec z 0) as [Hz|Hz].
  - destruct (Z.leb_spec 0 z); [lia|]. unfold prod in IH |- *. cbn [fold_right].
    cbn [List.length]. rewrite Nat2Z.inj_mul, IH, Nat2Z.inj_succ, Z.pow_succ_r by lia.
    ring.
  - destruct (Z.leb_spec 0 z); [|lia]. unfold prod in IH |- *. cbn [fold_right].
    rewrite Nat2Z.inj_mul, IH, Z2Nat.id by lia. ring.
Qed.

Lemma scan_dims_spec u acc dims u' s :
  scan_dims u acc dims = Ok (u', s) ->
  s = (acc * fold_right Z.mul 1 (filter (fun z => Z.leb 0 z) dims))%Z /\
  (List.length (filter (fun z => Z.ltb z 0) dims) + (if u then 1 else 0) =
   if u' then 1 else 0)%nat.
Proof.
  revert u acc. induction dims as [|z dims IH]; intros u acc H; cbn [scan_dims] in H.
  - injection H as <- <-. cbn. split; [lia|reflexivity].
  - cbn [filter fold_right]. revert H.
    destruct (Z.ltb_spec z 0) as [Hz|Hz]; destruct (Z.leb_spec 0 z) as [Hz'|Hz']; try lia.
    + destruct u; [discriminate|]. intros H.
      destruct (IH _ _ H) as [A B]. split; [exact A|]. cbn [List.length]. lia.
    + destruct (Z.ltb _ _); [discriminate|]. intros H.
      destruct (IH _ _ H) as [A B]. split; [rewrite A; cbn [fold_right]; ring|exact B].
Qed.

(** The shape [fix_unknown] settles on always accounts for every element,
    and has one entry per item of the requested shape. *)
Lemma fix_unknown_prod n dims sh :
  fix_unknown (Z.of_nat n) dims = Ok sh -> prod sh = n /\ List.length sh = List.length dims.
Proof.
  unfold fix_unknown.
  destruct (scan_dims false 1 dims) as [[u s]|] eqn:Hs; [|discriminate]. cbn [rbind].
  destruct (scan_dims_spec _ _ _ _ _ Hs) as [Hsv Hcnt]. rewrite Z.mul_1_l in Hsv.
  destruct u; cbv beta iota.
  - destruct (filter (fun z => Z.ltb z 0) dims) as [|u [|u' us]] eqn:Hu;
      cbn [List.length] in Hcnt; try lia.
    destruct (Z.eqb_spec s 0); [discriminate|].
    destruct (Z.eqb_spec (Z.of_nat n mod s) 0) as [Hmod|]; [|discriminate].
    cbn [orb negb]. intros H. injection H as <-. split; [|apply length_map].
    assert (Hk : (0 < s)%Z).
    { assert (Hp := prod_fill 1 dims). rewrite Hu, <- Hsv in Hp.
      cbn [List.length Z.of_nat] in Hp. rewrite Z.pow_1_r in Hp. lia. }
    apply Nat2Z.inj. rewrite (prod_fill (Z.to_nat (Z.of_nat n / s)) dims), Hu, <- Hsv.
    cbn [List.length Z.of_nat]. rewrite Z.pow_1_r, Z2Nat.id by (apply Z.div_pos; lia).
    rewrite Z.mul_comm, <- Z_div_exact_2 by lia. reflexivity.
  - destruct (Z.eqb_spec s (Z.of_nat n)) as [Hk|]; [|discriminate].
    intros H. injection H as <-. split; [|apply length_map].
    destruct (filter (fun z => Z.ltb z 0) dims) as [|u us] eqn:Hu;
      cbn [List.length] in Hcnt; [|lia].
    assert (Hm : map Z.to_nat dims = map (fun z => if Z.ltb z 0 then 0 else Z.to_nat z) dims).
    { apply map_ext_in. intros z Hin. destruct (Z.ltb_spec z 0) as [Hz|]; [|reflexivity].
      assert (In z (filter (fun z => Z.ltb z 0) dims)) as Hf
        by (apply filter_In; split; [exact Hin|apply Z.ltb_lt, Hz]).
      rewrite Hu in Hf. destruct Hf. }
    rewrite Hm. apply Nat2Z.inj. rewrite (prod_fill 0 dims), Hu, <- Hsv, Hk.
    cbn [List.length Z.of_nat]. rewrite Z.pow_0_r. apply Z.mul_1_l.
Qed.

Lemma map_result_length {A B} (f : A -> result B) l l' :
  map_result f l = Ok l' -> List.length l' = List.length l.
Proof.
  revert l'. induction l as [|x l IH]; intros l' H; cbn [map_result] in H.
  - injection H as <-. reflexivity.
  - destruct (f x); [|discriminate]. cbn [rbind] in H.
    destruct (map_result f l) as [ys|]; [|discriminate]. cbn [rbind] in H.
    injection H as <-. cbn [List.length]. f_equal. apply IH. reflexivity.
Qed.

Lemma from_bytes_ok buf (meta : json F) a :
  from_bytes buf meta = Ok a ->
  well_formed a /\ List.concat (a_data a) = buf /\ a_layout a <> LStrided.
Proof.
  destruct meta as [| | | | | |fs]; try discriminate. unfold from_bytes.
  destruct (dict_index "shape" fs) as [sj|]; [|discriminate]. cbn [rbind].
  destruct (shape_items sj) as [items|]; [|discriminate]. cbn [rbind].
  destruct (dict_index "dtype" fs) as [dj|]; [|discriminate]. cbn [rbind].
  destruct (dtype_of_json dj) as [d|]; [|discriminate]. cbn [rbind].
  destruct (frombuffer buf d) as [flat|] eqn:Hfb; [|discriminate]. cbn [rbind].
  destruct (frombuffer_ok _ _ _ Hfb) as (Hc & Hu & _).
  unfold reshape.
  destruct (order_of_json _) as [o|]; [|discriminate]. cbn [rbind].
  destruct (Nat.ltb_spec NPY_MAXDIMS (List.length items)) as [|Hdim]; [discriminate|].
  destruct (map_result dim_of_json items) as [dims|] eqn:Hdims; [|discriminate].
  cbn [rbind]. apply map_result_length in Hdims.
  destruct o; [| |discriminate]; cbn [rbind];
    (destruct (fix_unknown _ dims) as [sh|] eqn:Hfix; [|discriminate]); cbn [rbind];
    (destruct (nbytes_fits d sh) eqn:Hfit; [|discriminate]);
    intros H; injection H as <-; apply fix_unknown_prod in Hfix as [Hp Hl];
    (split; [split; [|split; [|split]]; simpl; [lia|exact Hu|lia|exact Hfit]|]);
    (split; [exact Hc|discriminate]).
Qed.

(** ** C1 *)

(** C1: for a contiguous array of any modelled dtype and rank 1 to 4 and
    documented metadata, encoding with [_send_numpy] and decoding the
    two-part message on the listener gives back an array with the same shape,
    dtype and elements, and a header holding every given field with its
    value (given that [json.loads] inverts [json.dumps]). *)
Theorem C1_encode_decode_roundtrip
  (dumps : json F -> list byte) (loads : list byte -> option (json F))
  (Hjson : forall j, loads (dumps j) = Some j)
  (a : ndarray) (name : option string) (o : display F)
  (Hwf : well_formed a) (Hcontig : c_contiguous a || f_contiguous a = true)
  (Hrank : 1 <= List.length (a_shape a) <= 4)
  (Hdoc : documented_display (List.length (a_shape a)) o) :
  exists msg b meta,
    send_numpy dumps a name o = Ok msg /\
    decode_message loads msg = Ok (b, meta) /\
    same_array a b /\ header_keeps meta name o.
Proof.
  destruct a as [sh d lay data]. destruct Hwf as (Hlen & Hall & Hdim & Hfit). simpl in *.
  destruct Hdoc as [Haff _].
  assert (Hm : (match affine o with
                | Some m => m' <- affine_tolist m ;; Ok (Some m')
                | None => Ok None end) = Ok (affine o)).
  { destruct (affine o) as [m|] eqn:E; [|reflexivity].
    rewrite affine_tolist_square by apply (Haff m eq_refl). reflexivity. }
  unfold send_numpy. rewrite Hcontig. cbv beta iota zeta. rewrite Hm. cbn [rbind].
  eexists _, _, _. split; [reflexivity|].
  unfold decode_message. rewrite Hjson. cbn [app].
  rewrite (from_bytes_encoded sh d data (f_contiguous (mk_ndarray sh d lay data))
             _ Hlen Hall Hdim Hfit).
  cbn [rbind]. split; [reflexivity|]. split.
  - unfold same_array; simpl. split; [reflexivity|split; [reflexivity|]].
    destruct lay; cbn [f_contiguous c_contiguous a_layout a_shape] in *;
      try discriminate.
    + destruct (trivial_shape sh) eqn:T; [|reflexivity].
      symmetry. apply c_elements_F_as_C, T.
    + reflexivity.
  - unfold header_keeps. cbn [app].
    repeat split; try (intros v Hv; rewrite Hv); find_field.
Qed.

(** ** C2 *)

(** C2 (as the code behaves): for a header map whose shape is a list of
    at most [NPY_MAXDIMS] non-negative ints whose non-zero entries times the
    item size fit an [npy_intp], whose dtype is one of the canonical names
    and whose order is absent or one of C, c, F, f, A, a, decoding fails
    exactly when the payload length differs from product(shape) times
    itemsize(dtype). *)
Theorem C2_decode_fails_iff_length_mismatch
  (loads : list byte -> option (json F)) (hdr payload : list byte)
  (fs : list (string * json F)) (sh : list nat) (d : dtype)
  (Hhdr : loads hdr = Some (JObj fs))
  (Hshape : dict_get "shape" fs = Some (JArr (map (fun n => JInt (Z.of_nat n)) sh)))
  (Hdims : (List.length sh <= NPY_MAXDIMS)%nat)
  (Hsize : nbytes_fits d sh = true)
  (Hdtype : dict_get "dtype" fs = Some (JStr (dtype_str d)))
  (Horder : forall o, dict_get "order" fs = Some o ->
              exists s, o = JStr s /\ In s ["C"; "c"; "F"; "f"; "A"; "a"]) :
  is_err (decode_message loads [hdr; payload]) =
  negb (Nat.eqb (List.length payload) (prod sh * itemsize d)).
Proof.
  unfold decode_message. rewrite Hhdr. unfold from_bytes, dict_index.
  rewrite Hshape. cbn [rbind shape_items]. rewrite Hdtype. cbn [rbind dtype_of_json].
  rewrite dtype_of_tag_str. cbn [rbind].
  assert (Ho : exists o, order_of_json
                 (match dict_get "order" fs with Some o => o | None => JStr "C" end)
                 = Ok o /\ o <> OrdK).
  { destruct (dict_get "order" fs) as [j|] eqn:E; [|exists OrdC; split; [reflexivity|discriminate]].
    destruct (Horder j eq_refl) as [s [-> Hin]].
    simpl in Hin. destruct Hin as [<-|[<-|[<-|[<-|[<-|[<-|[]]]]]]];
      eexists; (split; [reflexivity|discriminate]). }
  destruct Ho as [o [Ho HK]].
  pose proof (itemsize_pos d) as Hn.
  destruct (Nat.eqb_spec (List.length payload mod itemsize d) 0) as [Hm|Hm].
  - destruct (frombuffer_length payload d Hm) as [flat [Hfb Hlen]].
    rewrite Hfb. cbn [rbind]. rewrite (reshape_nat _ _ _ _ _ Ho HK Hdims Hsize).
    destruct (Nat.eqb_spec (prod sh) (List.length flat)) as [Hp|Hp];
      destruct (Nat.eqb_spec (List.length payload) (prod sh * itemsize d)) as [Hq|Hq];
      try reflexivity; nia.
  - unfold frombuffer. destruct (Nat.eqb_spec (List.length payload mod itemsize d) 0);
      [contradiction|]. cbn [rbind].
    destruct (Nat.eqb_spec (List.length payload) (prod sh * itemsize d)) as [Hq|]; [|reflexivity].
    rewrite Hq, Nat.Div0.mod_mul in Hm. contradiction.
Qed.

(** ** C3 *)

(** C3 (as the code behaves): decoding raises when the header lacks
    [shape] (a KeyError) or lacks [dtype]; it does not check [order] or the
    sign and number of the shape entries itself, but for a header whose
    dtype is null or a canonical name, whatever it returns is whole: a
    well-formed C- or F-ordered array whose element bytes are the entire
    payload, together with the parsed header. *)
Theorem C3_decode_requires_shape_dtype_and_is_whole
  (loads : list byte -> option (json F)) (hdr payload : list byte) :
  (forall fs, loads hdr = Some (JObj fs) -> dict_get "shape" fs = None ->
     decode_message loads [hdr; payload] = Err (KeyError "shape")) /\
  (forall fs, loads hdr = Some (JObj fs) -> dict_get "dtype" fs = None ->
     is_err (decode_message loads [hdr; payload]) = true) /\
  (forall fs a meta, loads hdr = Some (JObj fs) ->
     (dict_get "dtype" fs = Some JNull \/
      exists d, dict_get "dtype" fs = Some (JStr (dtype_str d))) ->
     decode_message loads [hdr; payload] = Ok (a, meta) ->
     meta = JObj fs /\ well_formed a /\ List.concat (a_data a) = payload /\
     a_layout a <> LStrided).
Proof.
  split; [|split].
  - intros fs Hl Hs. unfold decode_message. rewrite Hl.
    unfold from_bytes, dict_index. rewrite Hs. reflexivity.
  - intros fs Hl Hd. unfold decode_message. rewrite Hl.
    unfold from_bytes, dict_index. rewrite Hd.
    destruct (dict_get "shape" fs); [|reflexivity]. cbn [rbind].
    destruct (shape_items _); reflexivity.
  - intros fs a meta Hl _. unfold decode_message. rewrite Hl.
    destruct (from_bytes payload (JObj fs)) as [a'|] eqn:Hfb; [|discriminate].
    cbn [rbind]. intros H. injection H as <- <-.
    split; [reflexivity|]. apply (from_bytes_ok _ _ _ Hfb).
Qed.

(** ** C10 *)

(** C10: a header without an [order] field decodes exactly as the same
    header with [order] set to "C": the missing field is not an error. *)
Theorem C10_missing_order_is_C (buf : list byte) (fs : list (string * json F))
  (Hno : dict_get "order" fs = None) :
  from_bytes buf (JObj fs) = from_bytes buf (JObj (("order", JStr "C") :: fs)).
Proof. unfold from_bytes. rewrite Hno. reflexivity. Qed.

(** ** Flattening: [retrieve_array_like] *)

Lemma retrieve_leaf (name : string) (x : pyval F) :
  is_arraylike x = true -> (forall l, x <> VList l) ->
  retrieve_array_like name x = [(name, x)].
Proof.
  intros Ha Hl. destruct x; try discriminate; simpl in *; try rewrite Ha; try reflexivity.
  exfalso. exact (Hl _ eq_refl).
Qed.

Lemma dict_get_set {V} (p k : string) (v : V) acc :
  dict_get p (dict_set acc k v) = if String.eqb p k then Some v else dict_get p acc.
Proof.
  induction acc as [|[k' v'] acc IH]; simpl.
  - reflexivity.
  - destruct (String.eqb_spec k k') as [->|Hne]; simpl.
    + destruct (String.eqb p k'); reflexivity.
    + rewrite IH. destruct (String.eqb_spec p k'), (String.eqb_spec p k); congruence.
Qed.

Lemma dict_get_not_in {V} (p : string) (r : list (string * V)) :
  ~ In p (map fst r) -> dict_get p r = None.
Proof.
  induction r as [|[k v] r IH]; simpl; [reflexivity|].
  intros H. destruct (String.eqb_spec p k); [subst; tauto|]. apply IH. tauto.
Qed.

(** [d.update(r)] for an [r] with distinct keys: a key of [r] takes [r]'s
    value, any other key keeps its value in [d]. *)
Lemma dict_get_update {V} (p : string) (acc r : list (string * V)) :
  NoDup (map fst r) ->
  dict_get p (dict_update acc r) =
  match dict_get p r with Some v => Some v | None => dict_get p acc end.
Proof.
  unfold dict_update. revert acc.
  induction r as [|[k v] r IH]; intros acc Hnd; simpl; [reflexivity|].
  inversion Hnd as [|? ? Hk Hnd']; subst.
  rewrite IH by exact Hnd'. rewrite dict_get_set.
  destruct (String.eqb_spec p k) as [->|]; [|reflexivity].
  rewrite dict_get_not_in by exact Hk. reflexivity.
Qed.

Lemma in_keys_set {V} (acc : list (string * V)) k v p :
  In p (map fst (dict_set acc k v)) -> p = k \/ In p (map fst acc).
Proof.
  induction acc as [|[k' v'] acc IH]; simpl; [intros [->|[]]; auto|].
  destruct (String.eqb k k'); simpl; [tauto|].
  intros [->|H]; [auto|]. destruct (IH H); tauto.
Qed.

Lemma nodup_set {V} (acc : list (string * V)) k v :
  NoDup (map fst acc) -> NoDup (map fst (dict_set acc k v)).
Proof.
  induction acc as [|[k' v'] acc IH]; simpl; intros Hnd.
  - repeat constructor. simpl. tauto.
  - inversion Hnd as [|? ? Hk Hnd']; subst.
    destruct (String.eqb_spec k k') as [->|Hne]; simpl; [constructor; assumption|].
    constructor; [|apply IH, Hnd'].
    intros Hin. apply in_keys_set in Hin as [->|Hin]; [congruence|tauto].
Qed.

Lemma nodup_update {V} (acc r : list (string * V)) :
  NoDup (map fst acc) -> NoDup (map fst (dict_update acc r)).
Proof.
  unfold dict_update. revert acc.
  induction r as [|[k v] r IH]; intros acc Hnd; simpl; [exact Hnd|].
  apply IH, nodup_set, Hnd.
Qed.

(** The result of [retrieve_array_like] is a dict: its paths are distinct. *)
Lemma retrieve_nodup (name : string) (v : pyval F) :
  NoDup (map fst (retrieve_array_like name v)).
Proof.
  destruct v as [| | | | | |l|l|d|l|a|o]; cbn [retrieve_array_like];
    try (destruct (is_arraylike _); repeat constructor; simpl; tauto).
  - assert (Hnd : NoDup (map fst (@nil (string * pyval F)))) by constructor.
    revert Hnd. generalize (@nil (string * pyval F)) as acc, 0 as i.
    induction l as [|x l IH]; intros acc i Hnd; [exact Hnd|].
    apply IH, nodup_update, Hnd.
  - assert (Hnd : NoDup (map fst (@nil (string * pyval F)))) by constructor.
    revert Hnd. generalize (@nil (string * pyval F)) as acc.
    induction d as [|[k x] d IH]; intros acc Hnd; [exact Hnd|].
    apply IH, nodup_update, Hnd.
Qed.

Lemma retrieve_dict_snoc (name : string) (d : list (pykey * pyval F)) k x :
  retrieve_array_like name (VDict (d ++ [(k, x)])) =
  dict_update (retrieve_array_like name (VDict d))
    (retrieve_array_like (name ++ "[" ++ key_str k ++ "]") x).
Proof.
  cbn [retrieve_array_like]. generalize (@nil (string * pyval F)) as acc.
  induction d as [|[k' x'] d IH]; intros acc; [reflexivity|].
  simpl. apply IH.
Qed.

Lemma existsb_eqb_in (p : string) (l : list string) :
  existsb (String.eqb p) l = true <-> In p l.
Proof.
  rewrite existsb_exists. split.
  - intros [q [Hq E]]. apply String.eqb_eq in E. subst. exact Hq.
  - intros H. exists p. split; [exact H|apply String.eqb_refl].
Qed.

Lemma dict_set_notin {V} (acc : list (string * V)) k v :
  ~ In k (map fst acc) -> dict_set acc k v = acc ++ [(k, v)].
Proof.
  induction acc as [|[k' v'] acc IH]; simpl; [reflexivity|]. intros H.
  destruct (String.eqb_spec k k'); [subst; tauto|]. rewrite IH by tauto. reflexivity.
Qed.

Lemma dict_set_in {V} (acc : list (string * V)) k v :
  NoDup (map fst acc) -> In k (map fst acc) ->
  dict_set acc k v = map (fun kv => if String.eqb (fst kv) k then (fst kv, v) else kv) acc.
Proof.
  induction acc as [|[k' v'] acc IH]; simpl; [tauto|]. intros Hnd Hin.
  inversion Hnd as [|? ? Hk' Hnd']; subst.
  destruct (String.eqb_spec k k') as [<-|Hne].
  - rewrite String.eqb_refl. f_equal. symmetry. erewrite map_ext_in; [apply map_id|].
    intros [p q] Hpq. simpl. destruct (String.eqb_spec p k) as [->|]; [|reflexivity].
    exfalso. apply Hk'. apply (in_map fst) in Hpq. exact Hpq.
  - destruct (String.eqb_spec k' k) as [->|]; [congruence|]. f_equal.
    apply IH; [exact Hnd'|]. destruct Hin as [->|H]; [congruence|exact H].
Qed.

(** [dict.update] between dicts is [merged]. *)
Lemma dict_update_merged {V} (acc r : list (string * V)) :
  NoDup (map fst acc) -> NoDup (map fst r) -> dict_update acc r = merged acc r.
Proof.
  unfold dict_update, merged. revert acc.
  induction r as [|[k v] r IH]; intros acc Ha Hr; simpl.
  - rewrite app_nil_r. symmetry. erewrite map_ext; [apply map_id|]. intros [p q]. reflexivity.
  - inversion Hr as [|? ? Hk Hr']; subst.
    rewrite IH by (try apply nodup_set; assumption).
    destruct (in_dec string_dec k (map fst acc)) as [Hin|Hout].
    + rewrite (dict_set_in acc k v Ha Hin).
      replace (negb (existsb (String.eqb k) (map fst acc))) with false
        by (symmetry; apply negb_false_iff, existsb_eqb_in, Hin).
      rewrite map_map. f_equal.
      * apply map_ext. intros [p q]. simpl.
        destruct (String.eqb_spec p k) as [->|Hne]; simpl.
        -- rewrite ?String.eqb_refl, dict_get_not_in by exact Hk. reflexivity.
        -- destruct (String.eqb_spec p k); [congruence|reflexivity].
      * apply filter_ext. intros [p q]. simpl. f_equal. f_equal.
        rewrite map_map. apply map_ext. intros [p' q']. simpl.
        destruct (String.eqb p' k); reflexivity.
    + rewrite (dict_set_notin acc k v Hout).
      replace (negb (existsb (String.eqb k) (map fst acc))) with true
        by (symmetry; apply negb_true_iff, not_true_is_false; rewrite existsb_eqb_in; exact Hout).
      rewrite map_app. cbn [map fst snd]. rewrite dict_get_not_in by exact Hk.
      rewrite <- app_assoc. cbn [app]. f_equal.
      * apply map_ext_in. intros [p q] Hpq. simpl.
        destruct (String.eqb_spec p k) as [->|]; [|reflexivity].
        exfalso. apply Hout. apply (in_map fst) in Hpq. exact Hpq.
      * f_equal. apply filter_ext_in. intros [p q] Hpq. simpl.
        rewrite map_app, existsb_app. cbn [map fst existsb].
        destruct (String.eqb_spec p k) as [->|]; [|rewrite orb_false_r; reflexivity].
        exfalso. apply Hk. apply (in_map fst) in Hpq. exact Hpq.
Qed.

(** ** C4 *)

(** C4 (the code falls short): with array-like leaves [x1], [x2], [x3]
    (none a list), [retrieve_array_like("root", {"a": [x1, x2], "b": x3})]
    gives exactly the paths root[a][0], root[a][1], root[b]; but a tuple
    [(x1, x2)] in place of the list is not searched: it is kept whole as
    root[a] when numpy can stack it, and dropped otherwise. *)
Theorem C4_lists_searched_tuples_not (x1 x2 x3 : pyval F)
  (H1 : is_arraylike x1 = true) (H2 : is_arraylike x2 = true)
  (H3 : is_arraylike x3 = true)
  (N1 : forall l, x1 <> VList l) (N2 : forall l, x2 <> VList l)
  (N3 : forall l, x3 <> VList l) :
  retrieve_array_like "root" (VDict [(KStr "a", VList [x1; x2]); (KStr "b", x3)])
    = [("root[a][0]", x1); ("root[a][1]", x2); ("root[b]", x3)] /\
  retrieve_array_like "root" (VDict [(KStr "a", VTuple [x1; x2]); (KStr "b", x3)])
    = (if is_arraylike (VTuple [x1; x2]) then [("root[a]", VTuple [x1; x2])] else [])
      ++ [("root[b]", x3)].
Proof.
  split.
  - cbn -[is_arraylike].
    rewrite (retrieve_leaf _ x1 H1 N1), (retrieve_leaf _ x2 H2 N2), (retrieve_leaf _ x3 H3 N3).
    reflexivity.
  - cbn -[is_arraylike]. rewrite (retrieve_leaf _ x3 H3 N3).
    destruct (is_arraylike (VTuple [x1; x2])); reflexivity.
Qed.

(** ** C5 *)

(** C5 (as the code behaves): flattening a dict raises nothing on a path
    collision; the entries are merged with [dict.update]: the paths found so
    far keep their places, each taking the leaf of the later entry when it
    has the same path, and the new paths follow.  In particular, for every
    path the leaf of the later entry replaces the one produced before. *)
Theorem C5_later_entry_wins (name : string) (d : list (pykey * pyval F))
  (k : pykey) (x : pyval F) :
  retrieve_array_like name (VDict (d ++ [(k, x)])) =
  merged (retrieve_array_like name (VDict d))
    (retrieve_array_like (name ++ "[" ++ key_str k ++ "]") x) /\
  forall p,
  dict_get p (retrieve_array_like name (VDict (d ++ [(k, x)]))) =
  match dict_get p (retrieve_array_like (name ++ "[" ++ key_str k ++ "]") x) with
  | Some v => Some v
  | None => dict_get p (retrieve_array_like name (VDict d))
  end.
Proof.
  rewrite retrieve_dict_snoc. split.
  - apply dict_update_merged; apply retrieve_nodup.
  - intros p. apply dict_get_update, retrieve_nodup.
Qed.

(** ** Sending *)

Lemma send_leaves_prefix (dumps : json F -> list byte) (asq : pyval F -> ndarray)
  (o : display F) (out : outbox) pre p x post e ms :
  Forall2 (leaf_sent dumps asq o) pre ms -> to_numpy asq x = Err e ->
  send_leaves dumps asq out (pre ++ (p, x) :: post) o = ((out ++ ms)%list, Err e).
Proof.
  intros Hs Hx. revert out. induction Hs as [|[p' x'] m pre ms [a [Ha Hm]] _ IH];
    intros out; simpl.
  - rewrite Hx, app_nil_r. reflexivity.
  - simpl in Ha, Hm. rewrite Ha, Hm, IH, <- app_assoc. reflexivity.
Qed.

(** ** C6 *)

(** C6: when [send] flattens a dict, list or tuple and converting the
    leaf after [pre] fails with [e] (the TypeError "Unsupported array type"
    or what [np.asarray] raised), the call ends with [e], and the frames of
    the leaves of [pre], each converted and encoded, are already handed to
    the socket, in order; nothing is taken back. *)
Theorem C6_failed_leaf_keeps_earlier_frames (dumps : json F -> list byte)
  (asq : pyval F -> ndarray) (out : outbox) (v : pyval F) (name : option string)
  (o : display F) pre p x post e ms
  (Hstruct : match v with VDict _ | VList _ | VTuple _ => True | _ => False end)
  (Hleaves : retrieve_array_like (base_name name) v = pre ++ (p, x) :: post)
  (Hsent : Forall2 (leaf_sent dumps asq o) pre ms)
  (Hfail : to_numpy asq x = Err e) :
  send dumps asq out v name o = ((out ++ ms)%list, Err e).
Proof.
  unfold send. cbv zeta.
  destruct v; try contradiction; rewrite Hleaves; apply send_leaves_prefix; assumption.
Qed.

(** ** The listener loop *)

Lemma step_keeps_polling (loads : list byte -> option (json F)) (st : lstate F) ev :
  l_phase st = Polling -> ev <> EvStop -> (forall e, ev <> EvPollFail e) ->
  l_phase (step loads st ev) = Polling /\
  l_errors (step loads st ev) = l_errors st ++ tick_errors loads ev.
Proof.
  intros Hp Hs Hf. unfold step. rewrite Hp.
  destruct ev as [|r|e|]; [| |exfalso; exact (Hf e eq_refl)|exfalso; exact (Hs eq_refl)].
  - simpl. rewrite app_nil_r. auto.
  - destruct r as [parts| |e]; simpl.
    + destruct (decode_message loads parts); simpl; rewrite ?app_nil_r; auto.
    + rewrite app_nil_r. auto.
    + auto.
Qed.

(** ** C7 *)

(** C7: as long as neither [stop()] nor a failing [poll] occurs, the
    listener stays in its loop, whatever frames arrive: every frame that
    fails to decode (and every failed receive) is reported on the error
    signal, in order, and nothing else is. *)
Theorem C7_decode_failure_keeps_polling (loads : list byte -> option (json F))
  (st : lstate F) (evs : list event)
  (Hpol : l_phase st = Polling)
  (Hev : Forall (fun ev => ev <> EvStop /\ forall e, ev <> EvPollFail e) evs) :
  l_phase (run loads st evs) = Polling /\
  l_errors (run loads st evs) = l_errors st ++ flat_map (tick_errors loads) evs.
Proof.
  revert st Hpol. induction Hev as [|ev evs [Hs Hf] _ IH]; intros st Hpol; simpl.
  - rewrite app_nil_r. auto.
  - destruct (step_keeps_polling loads st ev Hpol Hs Hf) as [A B].
    destruct (IH _ A) as [C D]. split; [exact C|].
    rewrite D, B, <- app_assoc. reflexivity.
Qed.

(** ** Endpoints *)

Local Open Scope string_scope.

Lemma las_app (s t : string) :
  list_ascii_of_string (s ++ t) = (list_ascii_of_string s ++ list_ascii_of_string t)%list.
Proof. induction s as [|c s IH]; simpl; [reflexivity|]. rewrite IH. reflexivity. Qed.

Lemma substring_full (t : string) : substring 0 (String.length t) t = t.
Proof. induction t as [|c t IH]; simpl; [reflexivity|]. rewrite IH. reflexivity. Qed.

Lemma prefix_tcp (r : string) : String.prefix "tcp://" ("tcp://" ++ r) = true.
Proof. destruct r; reflexivity. Qed.

Lemma host_port_of_tcp (r : string) :
  substring 6 (String.length ("tcp://" ++ r) - 6) ("tcp://" ++ r) = r.
Proof. simpl. rewrite Nat.sub_0_r. apply substring_full. Qed.

Lemma rsplit_none (l : list ascii) : forallb no_colon l = true -> rsplit_colon l = None.
Proof.
  induction l as [|c l IH]; simpl; [reflexivity|].
  intros H. apply andb_true_iff in H as [Hc Hl]. rewrite IH by exact Hl.
  unfold no_colon in Hc. destruct (Ascii.eqb c ":"); [discriminate|reflexivity].
Qed.

Lemma rsplit_last (h p : list ascii) :
  forallb no_colon p = true -> rsplit_colon (h ++ ":"%char :: p)%list = Some (h, p).
Proof.
  intros Hp. induction h as [|c h IH]; simpl.
  - rewrite rsplit_none by exact Hp. reflexivity.
  - rewrite IH. reflexivity.
Qed.

Lemma bind_tcp (r : string) :
  bind_endpoint_for_public ("tcp://" ++ r) =
  match rsplit_colon (list_ascii_of_string r) with
  | None => "tcp://" ++ r
  | Some (host, port) =>
      match py_int (string_of_list_ascii port) with
      | None => "tcp://" ++ r
      | Some n =>
          if String.eqb (string_of_list_ascii host) "*" ||
             String.eqb (string_of_list_ascii host) "0.0.0.0"
          then "tcp://" ++ r else "tcp://*:" ++ z_str n
      end
  end.
Proof. unfold bind_endpoint_for_public. rewrite prefix_tcp, host_port_of_tcp. reflexivity. Qed.

Lemma endpoint_port_tcp (host port : string) :
  forallb no_colon (list_ascii_of_string port) = true ->
  endpoint_port ("tcp://" ++ host ++ ":" ++ port) = py_int port.
Proof.
  intros Hp. unfold endpoint_port. rewrite prefix_tcp, host_port_of_tcp, las_app. simpl (list_ascii_of_string (":" ++ port)).
  rewrite rsplit_last by exact Hp. rewrite string_of_list_ascii_of_string. reflexivity.
Qed.

(** ** C8 *)


(** ** C9 *)

(** C9: with [public] the default endpoint is a network (tcp) endpoint on
    port 5556; without it, it is the network loopback endpoint
    127.0.0.1:5556 when [os.name] is "nt" (Windows) and the local ipc
    endpoint otherwise.  [_utils.default_endpoint] is the same code. *)
Theorem C9_default_endpoint_kinds (p : platform) :
  endpoint_family (default_endpoint p true) = FamNetwork /\
  endpoint_port (default_endpoint p true) = Some 5556%Z /\
  endpoint_family (default_endpoint p false) =
    (if String.eqb (os_name p) "nt" then FamNetwork else FamLocal) /\
  endpoint_host (default_endpoint p false) =
    (if String.eqb (os_name p) "nt" then Some "127.0.0.1" else None) /\
  endpoint_port (default_endpoint p false) =
    (if String.eqb (os_name p) "nt" then Some 5556%Z else None).
Proof.
  split; [|split].
  - unfold endpoint_family, default_endpoint. cbv iota. rewrite prefix_tcp. reflexivity.
  - unfold default_endpoint. cbv iota.
    change (z_str DEFAULT_TCP_PORT) with "5556".
    rewrite endpoint_port_tcp by reflexivity. reflexivity.
  - unfold default_endpoint. cbv iota.
    destruct (String.eqb (os_name p) "nt"); vm_compute; auto.
Qed.

End Proofs.

Module WireCodecFacts.
Import WireCodec.

Lemma dec_pos_enc p r : dec_pos (enc_pos p ++ r) = Some (p, r).
Proof. induction p; simpl; try rewrite IHp; reflexivity. Qed.

Lemma dec_Z_enc z r : dec_Z (enc_Z z ++ r) = Some (z, r).
Proof. destruct z; simpl; try rewrite dec_pos_enc; reflexivity. Qed.

Lemma dec_str_enc s r : dec_str (enc_str s ++ r) = Some (s, r).
Proof.
  induction s as [|c s IH]; simpl; [reflexivity|].
  rewrite IH, ascii_of_byte_of_ascii. reflexivity.
Qed.

Lemma enc_items_cons x l : enc_items (x :: l) = x01 :: enc x ++ enc_items l.
Proof. unfold enc_items. simpl. rewrite <- app_assoc. reflexivity. Qed.

Lemma enc_fields_cons k x fs :
  enc_fields ((k, x) :: fs) = x01 :: enc_str k ++ enc x ++ enc_fields fs.
Proof. unfold enc_fields. simpl. rewrite <- !app_assoc. reflexivity. Qed.

Lemma enc_nonempty j : 1 <= List.length (enc j).
Proof. destruct j; simpl; lia. Qed.

Lemma enc_items_nonempty l : 1 <= List.length (enc_items l).
Proof. unfold enc_items. rewrite length_app. simpl. lia. Qed.

Lemma enc_fields_nonempty fs : 1 <= List.length (enc_fields fs).
Proof. unfold enc_fields. rewrite length_app. simpl. lia. Qed.

Lemma dec_enc n :
  (forall j r, List.length (enc j) <= n -> dec n (enc j ++ r) = Some (j, r)) /\
  (forall l r, List.length (enc_items l) <= n ->
     dec_items n (enc_items l ++ r) = Some (l, r)) /\
  (forall fs r, List.length (enc_fields fs) <= n ->
     dec_fields n (enc_fields fs ++ r) = Some (fs, r)).
Proof.
  induction n as [|n (IHj & IHl & IHf)].
  - split; [|split]; intros x r H.
    + pose proof (enc_nonempty x); lia.
    + pose proof (enc_items_nonempty x); lia.
    + pose proof (enc_fields_nonempty x); lia.
  - split; [|split].
    + intros j r H. destruct j as [| b | z | u | s | l | fs].
      * reflexivity.
      * destruct b; reflexivity.
      * simpl. rewrite dec_Z_enc. reflexivity.
      * destruct u; reflexivity.
      * simpl. rewrite dec_str_enc. reflexivity.
      * change (enc (JArr l)) with (x05 :: enc_items l) in *.
        simpl in H. simpl. rewrite IHl by lia. reflexivity.
      * change (enc (JObj fs)) with (x06 :: enc_fields fs) in *.
        simpl in H. simpl. rewrite IHf by lia. reflexivity.
    + intros l r H. destruct l as [|x l].
      * reflexivity.
      * rewrite enc_items_cons in *. simpl in H. rewrite length_app in H.
        simpl. rewrite <- app_assoc, IHj by lia. rewrite IHl by lia. reflexivity.
    + intros fs r H. destruct fs as [|[k x] fs].
      * reflexivity.
      * rewrite enc_fields_cons in *. simpl in H. rewrite !length_app in H.
        simpl. rewrite <- !app_assoc, dec_str_enc, IHj by lia.
        rewrite IHf by lia. reflexivity.
Qed.

Lemma loads_dumps j : loads (dumps j) = Some j.
Proof.
  unfold loads, dumps.
  pose proof (proj1 (dec_enc (S (List.length (enc j)))) j [] ltac:(lia)) as H.
  rewrite app_nil_r in H. rewrite H. reflexivity.
Qed.

End WireCodecFacts.

(** * Witnesses *)

(** C1 at a Fortran-ordered 2x2 uint16 array with every optional field
    set, under the byte codec of [WireCodec]. *)
Lemma C1_witness :
  exists msg b meta,
    send_numpy WireCodec.dumps ex_arr (Some "img") ex_display = Ok msg /\
    decode_message WireCodec.loads msg = Ok (b, meta) /\
    same_array ex_arr b /\ header_keeps meta (Some "img") ex_display.
Proof.
  apply (@C1_encode_decode_roundtrip unit WireCodec.dumps WireCodec.loads
           WireCodecFacts.loads_dumps ex_arr (Some "img") ex_display).
  - split; [reflexivity|].
    repeat constructor.
  - reflexivity.
  - simpl; lia.
  - split; [|split; [|split]]; simpl; intros x Hx; inversion Hx; subst.
    + split; [simpl; lia|]. repeat constructor.
    + reflexivity.
    + reflexivity.
    + reflexivity.
Defined.

(** C2 at a 2x3 uint16 header in F order with a 12-byte payload. *)
Lemma C2_witness :
  is_err (decode_message WireCodec.loads [WireCodec.dumps ex_hdr; ex_payload]) =
  negb (Nat.eqb (List.length ex_payload) (prod [2; 3] * itemsize DUInt16)).
Proof.
  apply (@C2_decode_fails_iff_length_mismatch unit WireCodec.loads
           (WireCodec.dumps ex_hdr) ex_payload
           [("shape", JArr [JInt 2%Z; JInt 3%Z]); ("dtype", JStr "uint16");
            ("order", JStr "F")] [2; 3] DUInt16).
  - apply WireCodecFacts.loads_dumps.
  - reflexivity.
  - apply Nat.leb_le. reflexivity.
  - vm_compute. reflexivity.
  - reflexivity.
  - intros o Ho. simpl in Ho. injection Ho as <-. exists "F". split; [reflexivity|].
    simpl. tauto.
Defined.

(** C2 as stated fails both ways.  A shape [-1] has product -1, yet with
    a 4-byte uint8 payload numpy infers the axis and decoding returns a
    4-element array; an order "K" makes decoding raise although the 2-byte
    payload matches the shape [2] of uint8; and the shape
    [2^40, 2^40, 0] with an empty payload raises (the running product of
    [_fix_unknown_dimension] overflows) although both sizes are 0. *)
Lemma C2_counterexample :
  (fold_right Z.mul 1 [(-1)%Z] * Z.of_nat (itemsize DUInt8) <> Z.of_nat 4)%Z /\
  decode_message WireCodec.loads [WireCodec.dumps ex_hdr_inferred; [x01; x02; x03; x04]]
  = Ok (mk_ndarray [4] DUInt8 LC [[x01]; [x02]; [x03]; [x04]], ex_hdr_inferred) /\
  List.length [x01; x02] = prod [2] * itemsize DUInt8 /\
  decode_message WireCodec.loads [WireCodec.dumps ex_hdr_order_K; [x01; x02]]
  = Err ValueError /\
  (fold_right Z.mul 1 [(2 ^ 40)%Z; (2 ^ 40)%Z; 0%Z] * Z.of_nat (itemsize DUInt8) =
   Z.of_nat (List.length (@nil byte)))%Z /\
  decode_message WireCodec.loads [WireCodec.dumps ex_hdr_too_big; []] = Err ValueError.
Proof.
  split; [simpl; lia|].
  split; [vm_compute; reflexivity|].
  split; [reflexivity|].
  split; [vm_compute; reflexivity|].
  split; [reflexivity|vm_compute; reflexivity].
Qed.

(** C3 on a header without [shape], one without [dtype], and a valid
    2x3 uint16 frame, whose decoded array is well formed and holds the whole
    payload. *)
Lemma C3_witness :
  decode_message WireCodec.loads [WireCodec.dumps ex_hdr_noshape; [x01]]
    = Err (KeyError "shape") /\
  is_err (decode_message WireCodec.loads [WireCodec.dumps ex_hdr_nodtype; [x01]]) = true /\
  exists a, decode_message WireCodec.loads [WireCodec.dumps ex_hdr; ex_payload]
              = Ok (a, ex_hdr) /\
            well_formed a /\ List.concat (a_data a) = ex_payload.
Proof.
  split.
  { apply (proj1 (@C3_decode_requires_shape_dtype_and_is_whole unit WireCodec.loads
                    (WireCodec.dumps ex_hdr_noshape) [x01]) [("dtype", JStr "uint8")]).
    - apply WireCodecFacts.loads_dumps.
    - reflexivity. }
  split.
  { apply (proj1 (proj2 (@C3_decode_requires_shape_dtype_and_is_whole unit WireCodec.loads
                    (WireCodec.dumps ex_hdr_nodtype) [x01])) [("shape", JArr [JInt 1%Z])]).
    - apply WireCodecFacts.loads_dumps.
    - reflexivity. }
  destruct (decode_message WireCodec.loads [WireCodec.dumps ex_hdr; ex_payload])
    as [[a m]|e] eqn:E; [|vm_compute in E; discriminate].
  destruct (proj2 (proj2 (@C3_decode_requires_shape_dtype_and_is_whole unit WireCodec.loads
              (WireCodec.dumps ex_hdr) ex_payload))
              [("shape", JArr [JInt 2%Z; JInt 3%Z]); ("dtype", JStr "uint16");
               ("order", JStr "F")] a m)
    as (Hl & Hwf & Hc & _);
    [apply WireCodecFacts.loads_dumps|right; exists DUInt16; reflexivity|exact E|].
  subst m. exists a. split; [reflexivity|]. split; [exact Hwf|exact Hc].
Defined.

(** C3 as stated fails: a header with an empty shape and no [order] field,
    and a 1-byte uint8 payload, decodes to a 0-d array instead of raising;
    so does a shape [0] with an empty payload. *)
Lemma C3_counterexample :
  decode_message WireCodec.loads [WireCodec.dumps ex_hdr_scalar; [x07]]
  = Ok (mk_ndarray [] DUInt8 LC [[x07]], ex_hdr_scalar) /\
  decode_message WireCodec.loads
    [WireCodec.dumps (JObj [("shape", JArr [JInt 0%Z]); ("dtype", JStr "uint8");
                            ("order", JStr "C")]); []]
  = Ok (mk_ndarray [0] DUInt8 LC [],
        JObj [("shape", JArr [JInt 0%Z]); ("dtype", JStr "uint8"); ("order", JStr "C")]).
Proof. split; vm_compute; reflexivity. Qed.

(** C10 on a uint8 header of shape [2] without [order]: it decodes as with
    order "C", to a C-ordered array. *)
Lemma C10_witness :
  from_bytes [x01; x02] (JObj ex_fields_noorder) =
  from_bytes [x01; x02] (JObj (("order", JStr "C") :: ex_fields_noorder)) /\
  from_bytes [x01; x02] (JObj ex_fields_noorder) = Ok (mk_ndarray [2] DUInt8 LC [[x01]; [x02]]).
Proof.
  split.
  - apply (@C10_missing_order_is_C unit). reflexivity.
  - vm_compute. reflexivity.
Defined.

(** C4 with two numpy arrays of shapes [2; 2] and [3] and a third array:
    the list is searched, the tuple (ragged, so not array-like) is dropped. *)
Lemma C4_witness :
  @retrieve_array_like unit "root"
    (VDict [(KStr "a", VList [VArray ex_arr; VArray ex_arr3]); (KStr "b", VArray ex_arr)])
    = [("root[a][0]", VArray ex_arr); ("root[a][1]", VArray ex_arr3);
       ("root[b]", VArray ex_arr)] /\
  @retrieve_array_like unit "root"
    (VDict [(KStr "a", VTuple [VArray ex_arr; VArray ex_arr3]); (KStr "b", VArray ex_arr)])
    = (if is_arraylike (@VTuple unit [VArray ex_arr; VArray ex_arr3])
       then [("root[a]", VTuple [VArray ex_arr; VArray ex_arr3])] else [])
      ++ [("root[b]", VArray ex_arr)].
Proof.
  apply (@C4_lists_searched_tuples_not unit); try reflexivity; intros l Hl; discriminate Hl.
Defined.

(** C5 fails as stated: the int key 1 and the str key "1" both give the
    path root[1]; no error is raised and only the later leaf is kept. *)
Lemma C5_counterexample :
  retrieve_array_like "root"
    (VDict [(KInt 1%Z, VArray ex_arr); (KStr "1", @VArray unit ex_arr3)])
  = [("root[1]", VArray ex_arr3)].
Proof. vm_compute. reflexivity. Qed.

(** C6 on [[array, obj]] where [obj] has [shape] and [dtype] but converts
    to an object array: the first frame is sent, then TypeError. *)
Lemma C6_witness :
  exists m,
    send WireCodec.dumps (fun _ => ex_arr) [] ex_leaves None ex_display
    = ([m], Err TypeError).
Proof.
  eexists.
  eapply (@C6_failed_leaf_keeps_earlier_frames unit WireCodec.dumps (fun _ => ex_arr) []
            ex_leaves None ex_display [("array[0]", VArray ex_arr)] "array[1]"
            (VObj ex_obj_object) [] TypeError [_]).
  - exact I.
  - vm_compute. reflexivity.
  - constructor; [|constructor]. exists ex_arr. split; reflexivity.
  - reflexivity.
Defined.

(** C7 on a listener that receives an undecodable one-part message, a
    timeout and a valid frame: it is still polling, with one error. *)
Lemma C7_witness :
  l_phase (run WireCodec.loads (start "ipc:///tmp/napari_stream.sock" None)
             [EvReady (RecvMsg ex_bad_frame); EvTimeout;
              EvReady (RecvMsg [WireCodec.dumps ex_hdr; ex_payload])]) = Polling /\
  l_errors (run WireCodec.loads (start "ipc:///tmp/napari_stream.sock" None)
             [EvReady (RecvMsg ex_bad_frame); EvTimeout;
              EvReady (RecvMsg [WireCodec.dumps ex_hdr; ex_payload])]) =
  l_errors (@start unit "ipc:///tmp/napari_stream.sock" None) ++
  flat_map (tick_errors WireCodec.loads)
    [EvReady (RecvMsg ex_bad_frame); EvTimeout;
     EvReady (RecvMsg [WireCodec.dumps ex_hdr; ex_payload])].
Proof.
  apply (@C7_decode_failure_keeps_polling unit).
  - reflexivity.
  - repeat constructor; try discriminate; intros e He; discriminate He.
Defined.

Open Scope string_scope.


(** * Further properties of the code *)

Section SenderExtras.
Context {F : Type}.
Local Open Scope list_scope.

Lemma affine_tolist_cases (m : list (list F)) :
  (rectangular m /\ affine_tolist m = Ok m) \/
  (~ rectangular m /\ affine_tolist m = Err ValueError).
Proof.
  destruct m as [|r0 m']; [left; split; [exact I|reflexivity]|].
  unfold rectangular, affine_tolist.
  destruct (forallb _ _) eqn:E; [left|right]; split; try reflexivity.
  - apply Forall_forall. intros x Hx. apply Nat.eqb_eq.
    exact (proj1 (forallb_forall _ _) E x Hx).
  - intros H. apply not_true_iff_false in E. apply E, forallb_forall.
    intros x Hx. rewrite Forall_forall in H. apply Nat.eqb_eq, H, Hx.
Qed.

Lemma affine_tolist_rect (m : list (list F)) :
  rectangular m -> affine_tolist m = Ok m.
Proof. intros H. destruct (affine_tolist_cases m) as [[_ E]|[N _]]; tauto. Qed.

Lemma c_elements_strided sh d data :
  c_elements (mk_ndarray sh d LStrided data) = c_elements (mk_ndarray sh d LC data).
Proof. reflexivity. Qed.

Lemma map_fst_opt_field {T} k (enc : T -> json F) x :
  map fst (opt_field k enc x) = opt_key k x.
Proof. destruct x; reflexivity. Qed.

Ltac find_field' :=
  cbn -[app opt_field];
  repeat rewrite dict_get_app;
  rewrite ?dict_get_opt_other by reflexivity;
  rewrite ?dict_get_opt_same; reflexivity.

(** [_send_numpy] then [_from_bytes], for every well-formed array of any
    rank and dtype and any memory layout (a non-contiguous one is copied to C
    order first), and every set of display fields whose affine is
    rectangular: sending succeeds, and the frame decodes to the same array and
    a header that keeps every given field. *)
Theorem send_numpy_roundtrip_any
  (dumps : json F -> list byte) (loads : list byte -> option (json F))
  (Hjson : forall j, loads (dumps j) = Some j)
  (a : ndarray) (name : option string) (o : display F)
  (Hwf : well_formed a)
  (Haff : forall m, affine o = Some m -> rectangular m) :
  exists msg b meta,
    send_numpy dumps a name o = Ok msg /\
    decode_message loads msg = Ok (b, meta) /\
    same_array a b /\ header_keeps meta name o.
Proof.
  destruct a as [sh d lay data]. destruct Hwf as (Hlen & Hall & Hdim & Hfit). simpl in *.
  assert (Hm : (match affine o with
                | Some m => m' <- affine_tolist m ;; Ok (Some m')
                | None => Ok None end) = Ok (affine o)).
  { destruct (affine o) as [m|] eqn:E; [|reflexivity].
    rewrite affine_tolist_rect by (apply Haff; reflexivity). reflexivity. }
  set (a' := if c_contiguous (mk_ndarray sh d lay data) || f_contiguous (mk_ndarray sh d lay data)
             then mk_ndarray sh d lay data else ascontiguousarray (mk_ndarray sh d lay data)).
  assert (Ha' : a_shape a' = sh /\ a_dtype a' = d /\ a_data a' = data /\
                c_elements (mk_ndarray sh d (if f_contiguous a' then LF else LC) data) =
                c_elements (mk_ndarray sh d lay data)).
  { subst a'. destruct lay; unfold ascontiguousarray, f_contiguous, c_contiguous;
      cbn [a_layout a_shape]; rewrite ?orb_true_r;
      destruct (trivial_shape sh) eqn:T; cbn [orb a_shape a_dtype a_data a_layout];
      repeat split; try reflexivity; rewrite T;
      try rewrite c_elements_F_as_C by exact T; reflexivity. }
  destruct Ha' as (Hs & Hd & Hdata & Hel).
  unfold send_numpy. fold a'. rewrite Hm. cbn [rbind].
  eexists _, _, _. split; [reflexivity|].
  unfold decode_message. rewrite Hjson. cbn [app].
  rewrite Hs, Hd, Hdata.
  replace (if f_contiguous a' then "F" else "C") with
    (if (f_contiguous a') then "F" else "C") by reflexivity.
  rewrite (from_bytes_encoded sh d data (f_contiguous a') _ Hlen Hall Hdim Hfit).
  cbn [rbind]. split; [reflexivity|]. split.
  - unfold same_array; simpl. split; [reflexivity|split; [reflexivity|]].
    symmetry. destruct (f_contiguous a'); exact Hel.
  - unfold header_keeps. cbn [app].
    repeat split; try (intros v Hv; rewrite Hv); find_field'.
Qed.

Lemma send_numpy_data (a : ndarray) :
  a_data (if c_contiguous a || f_contiguous a then a else ascontiguousarray a) = a_data a.
Proof.
  destruct (c_contiguous a || f_contiguous a); [reflexivity|].
  unfold ascontiguousarray. destruct (a_layout a); reflexivity.
Qed.

(** [_send_numpy]: a frame that is sent has two parts, the JSON header and
    the concatenated bytes of the array's elements; the header's keys are
    shape, dtype, order and is_labels, then each given optional field in a
    fixed order. *)
Theorem send_numpy_header_keys (dumps : json F -> list byte) (a : ndarray)
  (name : option string) (o : display F) (msg : list (list byte))
  (Hok : send_numpy dumps a name o = Ok msg) :
  exists fs,
    msg = [dumps (JObj fs); List.concat (a_data a)] /\
    map fst fs =
      ["shape"; "dtype"; "order"; "is_labels"] ++ opt_key "name" name ++
      opt_key "colormap" (colormap o) ++ opt_key "contrast_limits" (contrast_limits o) ++
      opt_key "rgb" (rgb o) ++ opt_key "affine" (affine o) ++
      opt_key "scale" (scale o) ++ opt_key "translate" (translate o) ++
      opt_key "opacity" (opacity o) ++ opt_key "blending" (blending o).
Proof.
  unfold send_numpy in Hok.
  destruct (match affine o with
            | Some m => m' <- affine_tolist m ;; Ok (Some m')
            | None => Ok None end) as [aff|] eqn:Ea; [|discriminate].
  cbn [rbind] in Hok. injection Hok as <-. eexists. split.
  - rewrite send_numpy_data. reflexivity.
  - cbn [map fst]. rewrite !map_app, !map_fst_opt_field.
    replace (opt_key "affine" aff) with (opt_key "affine" (affine o)); [reflexivity|].
    destruct (affine o) as [m|]; [|injection Ea as <-; reflexivity].
    destruct (affine_tolist m); cbn [rbind] in Ea; [|discriminate].
    injection Ea as <-. reflexivity.
Qed.

End SenderExtras.

Section FlattenExtras.
Context {F : Type}.
Local Open Scope list_scope.

Lemma send_leaves_all (dumps : json F -> list byte) (asq : pyval F -> ndarray)
  (o : display F) (out : outbox) leaves ms :
  Forall2 (leaf_sent dumps asq o) leaves ms ->
  send_leaves dumps asq out leaves o = (out ++ ms, Ok tt).
Proof.
  intros Hs. revert out. induction Hs as [|[p x] m leaves ms [a [Ha Hm]] _ IH];
    intros out; simpl.
  - rewrite app_nil_r. reflexivity.
  - simpl in Ha, Hm. rewrite Ha, Hm, IH, <- app_assoc. reflexivity.
Qed.

(** [send] on a dict, list or tuple: when every leaf found by
    [retrieve_array_like] converts and encodes, one frame per leaf is appended
    to the outbox, in the order of the leaves, and the call succeeds. *)
Theorem send_structure_sends_every_leaf (dumps : json F -> list byte)
  (asq : pyval F -> ndarray) (out : outbox) (v : pyval F) (name : option string)
  (o : display F) (ms : outbox)
  (Hstruct : match v with VDict _ | VList _ | VTuple _ => True | _ => False end)
  (Hsent : Forall2 (leaf_sent dumps asq o) (retrieve_array_like (base_name name) v) ms) :
  send dumps asq out v name o = (out ++ ms, Ok tt).
Proof.
  unfold send. cbv zeta.
  destruct v; try contradiction; apply send_leaves_all; assumption.
Qed.

(** [_to_numpy] fails on an array-like value only for a Python object:
    either [np.asarray] gives an object array (TypeError), or [np.asarray]
    itself raises, and that exception is passed on. *)
Theorem to_numpy_arraylike_failure (asq : pyval F -> ndarray) (x : pyval F) (e : pyexc)
  (Harr : is_arraylike x = true)
  (Hfail : to_numpy asq x = Err e) :
  exists o, x = VObj o /\
    ((o_asarray o = AsObject /\ e = TypeError) \/ o_asarray o = AsRaise e).
Proof.
  destruct x as [| | | | | |l|l|d|l|a|o]; try discriminate.
  - unfold is_arraylike in Harr. unfold to_numpy in Hfail.
    destruct (np_shape (VList l)); discriminate.
  - unfold is_arraylike in Harr. unfold to_numpy in Hfail.
    destruct (np_shape (VTuple l)); discriminate.
  - exists o. split; [reflexivity|]. simpl in Harr, Hfail. rewrite Harr in Hfail.
    destruct (o_asarray o) as [a| |e']; try discriminate.
    + injection Hfail as <-. auto.
    + injection Hfail as <-. auto.
Qed.

Lemma In_dict_set {V} (d : list (string * V)) k v kv :
  In kv (dict_set d k v) -> In kv d \/ kv = (k, v).
Proof.
  induction d as [|[k' v'] d IH]; simpl; [intros [<-|[]]; auto|].
  destruct (String.eqb k k') eqn:E.
  - apply String.eqb_eq in E. subst k'. intros [<-|H]; auto.
  - intros [<-|H]; auto. destruct (IH H); auto.
Qed.

Lemma In_dict_update {V} (acc r : list (string * V)) kv :
  In kv (dict_update acc r) -> In kv acc \/ In kv r.
Proof.
  unfold dict_update. revert acc. induction r as [|[k v] r IH]; intros acc; simpl; auto.
  intros H. destruct (IH _ H) as [H1|H1]; auto.
  destruct (In_dict_set _ _ _ _ H1) as [H2|H2]; auto.
Qed.

(** Induction on Python values through the items of lists and dicts. *)
Lemma pyval_nested_ind (P : pyval F -> Prop)
  (Hlist : forall l, Forall P l -> P (VList l))
  (Hdict : forall d, Forall (fun kx => P (snd kx)) d -> P (VDict d))
  (Hother : forall v, match v with VList _ | VDict _ => False | _ => True end -> P v) :
  forall v, P v.
Proof.
  fix IH 1. intros v. destruct v as [| | | | | |l|l|d|l|a|o]; try (apply Hother; exact I).
  - apply Hlist. revert l. fix IHl 1. intros [|x l']; constructor; [apply IH|apply IHl].
  - apply Hdict. revert d. fix IHd 1. intros [|[k x] d']; constructor; [apply IH|apply IHd].
Qed.

Lemma app_assoc_str (s t u : string) : ((s ++ t) ++ u = s ++ (t ++ u))%string.
Proof. induction s as [|c s IH]; simpl; [reflexivity|]. rewrite IH. reflexivity. Qed.

Lemma app_nil_str (s : string) : (s ++ "")%string = s.
Proof. induction s as [|c s IH]; simpl; [reflexivity|]. rewrite IH. reflexivity. Qed.

Lemma retrieve_leaves (v : pyval F) : forall (name : string) px,
  In px (retrieve_array_like name v) ->
  is_arraylike (snd px) = true /\ exists sfx, fst px = (name ++ sfx)%string.
Proof.
  induction v as [l IHl|d IHd|v Hv] using pyval_nested_ind; intros name px.
  - cbn [retrieve_array_like]. generalize 0 as i.
    assert (Hacc : forall px, In px (@nil (string * pyval F)) ->
              is_arraylike (snd px) = true /\ exists sfx, fst px = (name ++ sfx)%string)
      by (intros ? []).
    revert Hacc. generalize (@nil (string * pyval F)) as acc.
    induction IHl as [|x l Hx _ IH]; intros acc Hacc i; [apply Hacc|].
    apply IH. intros q Hq. destruct (In_dict_update _ _ _ Hq) as [Hq'|Hq']; [auto|].
    destruct (Hx _ _ Hq') as [Ha [sfx Hs]]. split; [exact Ha|].
    rewrite Hs, app_assoc_str. eauto.
  - cbn [retrieve_array_like].
    assert (Hacc : forall px, In px (@nil (string * pyval F)) ->
              is_arraylike (snd px) = true /\ exists sfx, fst px = (name ++ sfx)%string)
      by (intros ? []).
    revert Hacc. generalize (@nil (string * pyval F)) as acc.
    induction IHd as [|[k x] d Hx _ IH]; intros acc Hacc; [apply Hacc|].
    apply IH. intros q Hq. destruct (In_dict_update _ _ _ Hq) as [Hq'|Hq']; [auto|].
    destruct (Hx _ _ Hq') as [Ha [sfx Hs]]. split; [exact Ha|].
    rewrite Hs, app_assoc_str. eauto.
  - destruct v; try contradiction; cbn [retrieve_array_like];
      intros H; destruct (is_arraylike _) eqn:E; simpl in H; try contradiction;
      destruct H as [<-|[]]; (split; [exact E|exists ""%string; symmetry; apply app_nil_str]).
Qed.

(** [retrieve_array_like]: the paths of the result are pairwise distinct,
    every leaf is array-like, and every path starts with the given name. *)
Theorem retrieve_leaves_distinct_paths (name : string) (v : pyval F) :
  NoDup (map fst (retrieve_array_like name v)) /\
  Forall (fun px => is_arraylike (snd px) = true /\
                    exists sfx, fst px = (name ++ sfx)%string)
         (retrieve_array_like name v).
Proof.
  split; [apply retrieve_nodup|]. apply Forall_forall. intros px Hpx.
  exact (retrieve_leaves v name px Hpx).
Qed.

End FlattenExtras.

Section ListenerExtras.
Context {F : Type}.
Local Open Scope list_scope.

(** [_from_bytes] with the shape a JSON list (any items), the dtype one of
    the canonical names, and a payload whose length is not a multiple of
    the dtype's item size raises ValueError: [np.frombuffer] fails before
    the shape or the order is looked at. *)
Theorem from_bytes_partial_element (buf : list byte) (fs : list (string * json F))
  (l : list (json F)) (d : dtype)
  (Hshape : dict_get "shape" fs = Some (JArr l))
  (Hdtype : dict_get "dtype" fs = Some (JStr (dtype_str d)))
  (Hpartial : List.length buf mod itemsize d <> 0) :
  from_bytes buf (JObj fs) = Err ValueError.
Proof.
  unfold from_bytes, dict_index. rewrite Hshape. cbn [rbind shape_items].
  rewrite Hdtype. cbn [rbind dtype_of_json]. rewrite dtype_of_tag_str. cbn [rbind].
  unfold frombuffer. apply Nat.eqb_neq in Hpartial. rewrite Hpartial. reflexivity.
Qed.

(** ** The listener loop *)

Lemma run_app (loads : list byte -> option (json F)) (st : lstate F) evs1 evs2 :
  run loads st (evs1 ++ evs2) = run loads (run loads st evs1) evs2.
Proof. revert st. induction evs1 as [|ev evs1 IH]; intros st; simpl; auto. Qed.

Lemma repeat_snoc {A} (x : A) k : repeat x k ++ [x] = repeat x (S k).
Proof. induction k as [|k IH]; simpl; [reflexivity|]. rewrite IH. reflexivity. Qed.

(** Once the loop has ended, only [stop()] calls leave a trace: one
    status line each. *)
Lemma run_closed (loads : list byte -> option (json F)) (st : lstate F) evs :
  l_phase st = Closed ->
  run loads st evs =
  mk_lstate Closed (l_received st) (l_errors st)
    (l_status st ++ repeat stopping_msg (stops evs)).
Proof.
  revert st. induction evs as [|ev evs IH]; intros st Hc; simpl.
  - destruct st; simpl in *. subst. rewrite app_nil_r. reflexivity.
  - unfold step. rewrite Hc. unfold stops. cbn [filter]. fold (stops evs).
    destruct ev; cbn [List.length];
      try (rewrite IH by exact Hc; reflexivity).
    rewrite IH by exact Hc. cbn. rewrite <- app_assoc. reflexivity.
Qed.

Lemma run_polling (loads : list byte -> option (json F)) (st : lstate F) evs :
  l_phase st = Polling ->
  Forall (fun ev => ev <> EvStop /\ forall e, ev <> EvPollFail e) evs ->
  l_phase (run loads st evs) = Polling.
Proof.
  intros Hp Hev. revert st Hp. induction Hev as [|ev evs [Hs Hf] _ IH]; intros st Hp;
    simpl; [exact Hp|].
  apply IH, (step_keeps_polling loads st ev Hp Hs Hf).
Qed.

(** The listener loop, while polling: a stop request ends the loop; the
    state is closed, the received frames and errors are those before the
    stop, and the status log gains "Stopping listener" with an ellipsis and
    "Listener stopped.", then one more "Stopping listener" line for each
    later [stop()] call; nothing else that follows changes the state. *)
Theorem run_stop_closes (loads : list byte -> option (json F)) (st : lstate F)
  (pre post : list event)
  (Hpol : l_phase st = Polling)
  (Hpre : Forall (fun ev => ev <> EvStop /\ forall e, ev <> EvPollFail e) pre) :
  run loads st (pre ++ EvStop :: post) =
  mk_lstate Closed (l_received (run loads st pre)) (l_errors (run loads st pre))
    (l_status (run loads st pre) ++ [stopping_msg; "Listener stopped."] ++
     repeat stopping_msg (stops post)).
Proof.
  rewrite run_app. cbn [run]. unfold step.
  rewrite (run_polling loads st pre Hpol Hpre).
  rewrite run_closed by reflexivity.
  unfold teardown, emit_status. cbn. rewrite <- !app_assoc. reflexivity.
Qed.

(** The listener loop, while polling: a failing poll ends the loop; the
    error is reported, the status log gains "Listener stopped." and then
    one "Stopping listener" line for each later [stop()] call; nothing else
    that follows changes the state. *)
Theorem run_poll_failure_closes (loads : list byte -> option (json F)) (st : lstate F)
  (pre post : list event) (e : pyexc)
  (Hpol : l_phase st = Polling)
  (Hpre : Forall (fun ev => ev <> EvStop /\ forall e, ev <> EvPollFail e) pre) :
  run loads st (pre ++ EvPollFail e :: post) =
  mk_lstate Closed (l_received (run loads st pre)) (l_errors (run loads st pre) ++ [e])
    (l_status (run loads st pre) ++ ["Listener stopped."] ++
     repeat stopping_msg (stops post)).
Proof.
  rewrite run_app. cbn [run]. unfold step.
  rewrite (run_polling loads st pre Hpol Hpre).
  rewrite run_closed by reflexivity. cbn. rewrite <- app_assoc. reflexivity.
Qed.

Lemma step_received (loads : list byte -> option (json F)) (st : lstate F) ev :
  l_phase st = Polling -> ev <> EvStop -> (forall e, ev <> EvPollFail e) ->
  l_received (step loads st ev) = l_received st ++ tick_received loads ev.
Proof.
  intros Hp Hs Hf. unfold step. rewrite Hp.
  destruct ev as [|r|e|]; [| |exfalso; exact (Hf e eq_refl)|exfalso; exact (Hs eq_refl)].
  - simpl. rewrite app_nil_r. reflexivity.
  - destruct r as [parts| |e]; simpl.
    + destruct (decode_message loads parts); simpl; rewrite ?app_nil_r; reflexivity.
    + rewrite app_nil_r. reflexivity.
    + rewrite app_nil_r. reflexivity.
Qed.

(** The listener loop, as long as it is not stopped and polling does not
    fail: the frames emitted are exactly the decodable messages received, in
    the order they arrived. *)
Theorem run_received_in_order (loads : list byte -> option (json F)) (st : lstate F)
  (evs : list event)
  (Hpol : l_phase st = Polling)
  (Hev : Forall (fun ev => ev <> EvStop /\ forall e, ev <> EvPollFail e) evs) :
  l_received (run loads st evs) = l_received st ++ flat_map (tick_received loads) evs.
Proof.
  revert st Hpol. induction Hev as [|ev evs [Hs Hf] _ IH]; intros st Hpol; simpl.
  - rewrite app_nil_r. reflexivity.
  - rewrite IH by exact (proj1 (step_keeps_polling loads st ev Hpol Hs Hf)).
    rewrite (step_received loads st ev Hpol Hs Hf), app_assoc. reflexivity.
Qed.

Lemma step_status_log (loads : list byte -> option (json F)) (s0 : list string)
  (st : lstate F) ev :
  (l_phase st = Polling /\ l_status st = s0) \/
  (l_phase st = Closed /\ exists k,
     l_status st = s0 ++ [stopping_msg; "Listener stopped."] ++ repeat stopping_msg k \/
     l_status st = s0 ++ ["Listener stopped."] ++ repeat stopping_msg k) ->
  (l_phase (step loads st ev) = Polling /\ l_status (step loads st ev) = s0) \/
  (l_phase (step loads st ev) = Closed /\ exists k,
     l_status (step loads st ev) =
       s0 ++ [stopping_msg; "Listener stopped."] ++ repeat stopping_msg k \/
     l_status (step loads st ev) = s0 ++ ["Listener stopped."] ++ repeat stopping_msg k).
Proof.
  intros [[Hp Hs]|[Hc [k Hs]]]; unfold step; [rewrite Hp|rewrite Hc; right].
  - destruct ev as [|r|e|].
    + left. auto.
    + left. destruct r as [parts| |e]; simpl; auto.
      destruct (decode_message loads parts); simpl; auto.
    + right. simpl. split; [reflexivity|]. exists 0. rewrite Hs. auto.
    + right. simpl. split; [reflexivity|]. exists 0. rewrite Hs, <- app_assoc. auto.
  - destruct ev; try (split; [exact Hc|exists k; exact Hs]).
    simpl. split; [exact Hc|]. exists (S k).
    rewrite <- repeat_snoc.
    destruct Hs as [Hs|Hs]; rewrite Hs, <- !app_assoc; auto.
Qed.

(** [start] then the loop: if binding fails, the listener is closed with
    that one error and the status "Listener stopped." followed by one
    "Stopping listener" line per [stop()] call; otherwise the status log is
    "Listening on <endpoint>" while polling, and once the loop has ended
    that line followed by "Listener stopped.", possibly with a "Stopping
    listener" line in between, and then only "Stopping listener" lines. *)
Theorem session_status_log (loads : list byte -> option (json F)) (endpoint : string)
  (bind_error : option pyexc) (evs : list event) :
  match bind_error with
  | Some e => run loads (start endpoint bind_error) evs =
              mk_lstate Closed [] [e] ("Listener stopped." :: repeat stopping_msg (stops evs))
  | None =>
      let s := run loads (start endpoint bind_error) evs in
      (l_phase s = Polling /\ l_status s = [("Listening on " ++ endpoint)%string]) \/
      (l_phase s = Closed /\ exists k,
       l_status s = [("Listening on " ++ endpoint)%string; stopping_msg;
                     "Listener stopped."] ++ repeat stopping_msg k \/
       l_status s = [("Listening on " ++ endpoint)%string; "Listener stopped."] ++
                    repeat stopping_msg k)
  end.
Proof.
  destruct bind_error as [e|].
  - rewrite run_closed by reflexivity. reflexivity.
  - cbv zeta. set (s0 := [("Listening on " ++ endpoint)%string]).
    change ([("Listening on " ++ endpoint)%string; stopping_msg; "Listener stopped."])
      with (s0 ++ [stopping_msg; "Listener stopped."]).
    change ([("Listening on " ++ endpoint)%string; "Listener stopped."])
      with (s0 ++ ["Listener stopped."]).
    setoid_rewrite <- app_assoc.
    assert (H0 : (l_phase (start endpoint (@None pyexc) : lstate F) = Polling /\
                  l_status (start endpoint (@None pyexc) : lstate F) = s0) \/
                 (l_phase (start endpoint (@None pyexc) : lstate F) = Closed /\ exists k,
                  l_status (start endpoint (@None pyexc) : lstate F) =
                    s0 ++ [stopping_msg; "Listener stopped."] ++ repeat stopping_msg k \/
                  l_status (start endpoint (@None pyexc) : lstate F) =
                    s0 ++ ["Listener stopped."] ++ repeat stopping_msg k)) by (left; auto).
    revert H0. generalize (start endpoint None : lstate F) as st.
    induction evs as [|ev evs IH]; intros st H; simpl; [exact H|].
    apply IH, step_status_log, H.
Qed.

End ListenerExtras.

Section EndpointExtras.
Local Open Scope string_scope.

Lemma digit_char_props (d : Z) :
  (0 <= d < 10)%Z ->
  is_digit (digit_char d) = true /\ is_py_space (digit_char d) = false /\
  no_colon (digit_char d) = true /\
  Ascii.eqb (digit_char d) "+" = false /\ Ascii.eqb (digit_char d) "-" = false /\
  nat_of_ascii (digit_char d) - 48 = Z.to_nat d.
Proof.
  intros Hd. unfold digit_char. assert (Hk : (Z.to_nat d < 10)%nat) by lia.
  generalize dependent (Z.to_nat d). intros k Hk.
  do 10 (destruct k as [|k]; [vm_compute; repeat split; reflexivity|]). lia.
Qed.

Lemma pos_digits_chars (P : ascii -> Prop) (fuel : nat) : forall (z : Z) (acc : string),
  (0 <= z)%Z -> (forall d, (0 <= d < 10)%Z -> P (digit_char d)) ->
  Forall P (list_ascii_of_string acc) ->
  Forall P (list_ascii_of_string (pos_digits fuel z acc)).
Proof.
  induction fuel as [|fuel IH]; intros z acc Hz HP Hacc; cbn [pos_digits]; [exact Hacc|].
  assert (Hm : (0 <= z mod 10 < 10)%Z) by (apply Z.mod_pos_bound; lia).
  assert (Hacc' : Forall P (list_ascii_of_string (String (digit_char (z mod 10)) acc)))
    by (simpl; constructor; [apply HP, Hm|exact Hacc]).
  destruct (Z.eqb (z / 10) 0); [exact Hacc'|].
  apply IH; [apply Z.div_pos; lia|exact HP|exact Hacc'].
Qed.

Lemma pos_digits_value (fuel : nat) : forall (z : Z) (acc : string),
  (0 < z < 10 ^ Z.of_nat fuel)%Z ->
  exists k, forall a b,
    digits_value (list_ascii_of_string (pos_digits fuel z acc)) a b =
    digits_value (list_ascii_of_string acc) (a * 10 ^ Z.of_nat k + z)%Z true.
Proof.
  induction fuel as [|fuel IH]; intros z acc Hz.
  - simpl in Hz. lia.
  - cbn [pos_digits].
    assert (Hm : (0 <= z mod 10 < 10)%Z) by (apply Z.mod_pos_bound; lia).
    assert (Hdm : z = (10 * (z / 10) + z mod 10)%Z) by (apply Z.div_mod; lia).
    destruct (digit_char_props _ Hm) as (Hdig & _ & _ & _ & _ & Hval).
    assert (Hstep : forall a,
      digits_value (list_ascii_of_string (String (digit_char (z mod 10)) acc)) a true =
      digits_value (list_ascii_of_string acc) (a * 10 + z mod 10)%Z true).
    { intros a. cbn [list_ascii_of_string digits_value]. rewrite Hdig, Hval, Z2Nat.id by lia.
      reflexivity. }
    destruct (Z.eqb_spec (z / 10) 0) as [H0|H0].
    + exists 1%nat. intros a b. cbn [list_ascii_of_string digits_value].
      rewrite Hdig, Hval, Z2Nat.id by lia. f_equal. rewrite H0 in Hdm. simpl. lia.
    + assert (Hq : (0 < z / 10 < 10 ^ Z.of_nat fuel)%Z).
      { split; [assert (0 <= z / 10)%Z by (apply Z.div_pos; lia); lia|].
        apply Z.div_lt_upper_bound; [lia|].
        rewrite Nat2Z.inj_succ, Z.pow_succ_r in Hz by lia. lia. }
      destruct (IH _ (String (digit_char (z mod 10)) acc) Hq) as [k Hk].
      exists (S k). intros a b. rewrite Hk, Hstep. f_equal.
      rewrite Nat2Z.inj_succ, Z.pow_succ_r by lia.
      rewrite Hdm at 3. ring.
Qed.

Lemma pos_bound (p : positive) : (Z.pos p < 10 ^ Z.of_nat (Pos.size_nat p))%Z.
Proof.
  assert (H2 : (Z.pos p < 2 ^ Z.of_nat (Pos.size_nat p))%Z).
  { induction p as [p IH|p IH|]; [| |reflexivity]; cbn [Pos.size_nat];
      rewrite Nat2Z.inj_succ, Z.pow_succ_r by lia;
      [rewrite Pos2Z.inj_xI|rewrite Pos2Z.inj_xO]; lia. }
  eapply Z.lt_le_trans; [exact H2|]. apply Z.pow_le_mono_l. lia.
Qed.

Lemma drop_spaces_id (l : list ascii) :
  Forall (fun c => is_py_space c = false) l -> drop_spaces l = l.
Proof. destruct l as [|c l]; [reflexivity|]. intros H. inversion H; subst. simpl. rewrite H2. reflexivity. Qed.

Lemma strip_id (l : list ascii) :
  Forall (fun c => is_py_space c = false) l -> strip l = l.
Proof.
  intros H. unfold strip. rewrite (drop_spaces_id l H), drop_spaces_id, rev_involutive;
    [reflexivity|]. apply Forall_rev, H.
Qed.

Lemma z_str_pos_chars (P : ascii -> Prop) (p : positive) :
  (forall d, (0 <= d < 10)%Z -> P (digit_char d)) ->
  Forall P (list_ascii_of_string (pos_digits (Pos.size_nat p) (Z.pos p) "")).
Proof. intros HP. apply pos_digits_chars; [lia|exact HP|constructor]. Qed.

Lemma py_int_z_str (z : Z) : py_int (z_str z) = Some z.
Proof.
  destruct z as [|p|p]; [reflexivity| |].
  - unfold z_str, py_int. set (s := pos_digits _ _ _).
    assert (Hsp : Forall (fun c => is_py_space c = false) (list_ascii_of_string s))
      by (apply z_str_pos_chars; intros d Hd; apply (digit_char_props d Hd)).
    assert (Hdg : Forall (fun c => is_digit c = true /\ Ascii.eqb c "+" = false /\
                                    Ascii.eqb c "-" = false) (list_ascii_of_string s))
      by (apply z_str_pos_chars; intros d Hd;
          destruct (digit_char_props d Hd) as (A & _ & _ & B & C & _); auto).
    destruct (pos_digits_value (Pos.size_nat p) (Z.pos p) "") as [k Hk];
      [split; [lia|apply pos_bound]|].
    fold s in Hk. rewrite strip_id by exact Hsp.
    destruct (list_ascii_of_string s) as [|c l] eqn:Es.
    + specialize (Hk 0%Z false). simpl in Hk. discriminate.
    + inversion Hdg as [|? ? (_ & Hp & Hm) _]; subst. rewrite Hp, Hm.
      rewrite (Hk 0%Z false). reflexivity.
  - unfold z_str, py_int. set (s := pos_digits _ _ _).
    assert (Hsp : Forall (fun c => is_py_space c = false) (list_ascii_of_string s))
      by (apply z_str_pos_chars; intros d Hd; apply (digit_char_props d Hd)).
    destruct (pos_digits_value (Pos.size_nat p) (Z.pos p) "") as [k Hk];
      [split; [lia|apply pos_bound]|].
    fold s in Hk. cbn [list_ascii_of_string append].
    rewrite strip_id by (constructor; [reflexivity|exact Hsp]).
    cbn - [digits_value]. rewrite (Hk 0%Z false). reflexivity.
Qed.

Lemma z_str_no_colon (z : Z) : forallb no_colon (list_ascii_of_string (z_str z)) = true.
Proof.
  assert (H : forall p, forallb no_colon
                (list_ascii_of_string (pos_digits (Pos.size_nat p) (Z.pos p) "")) = true).
  { intros p. apply forallb_forall, (proj1 (Forall_forall _ _)), z_str_pos_chars.
    intros d Hd. apply (digit_char_props d Hd). }
  destruct z as [|p|p]; [reflexivity|apply H|].
  cbn [z_str list_ascii_of_string append forallb]. apply H.
Qed.

Lemma prefix_split (s e : string) :
  String.prefix s e = true -> exists r, e = s ++ r.
Proof.
  revert e. induction s as [|c s IH]; intros e H; [exists e; reflexivity|].
  destruct e as [|c' e]; [discriminate|]. simpl in H.
  destruct (ascii_dec c c') as [<-|]; [|discriminate].
  destruct (IH e H) as [r ->]. exists r. reflexivity.
Qed.

Lemma bind_cases (e : string) :
  bind_endpoint_for_public e = e \/
  exists n, bind_endpoint_for_public e = "tcp://*:" ++ z_str n /\ endpoint_port e = Some n.
Proof.
  destruct (String.prefix "tcp://" e) eqn:Hp.
  - destruct (prefix_split _ e Hp) as [r ->]. rewrite bind_tcp.
    unfold endpoint_port. rewrite prefix_tcp, host_port_of_tcp.
    destruct (rsplit_colon (list_ascii_of_string r)) as [[h pt]|]; [|left; reflexivity].
    destruct (py_int (string_of_list_ascii pt)) as [n|]; [|left; reflexivity].
    destruct (_ || _); [left; reflexivity|right; eauto].
  - left. unfold bind_endpoint_for_public. rewrite Hp. reflexivity.
Qed.

Lemma endpoint_host_tcp (host port : string) :
  forallb no_colon (list_ascii_of_string port) = true ->
  endpoint_host ("tcp://" ++ host ++ ":" ++ port) = Some host.
Proof.
  intros Hp. unfold endpoint_host. rewrite prefix_tcp, host_port_of_tcp, las_app.
  simpl (list_ascii_of_string (":" ++ port)).
  rewrite rsplit_last by exact Hp. rewrite string_of_list_ascii_of_string. reflexivity.
Qed.

Lemma bound_all_port (n : Z) :
  endpoint_port ("tcp://*:" ++ z_str n) = Some n /\
  endpoint_host ("tcp://*:" ++ z_str n) = Some "*" /\
  bind_endpoint_for_public ("tcp://*:" ++ z_str n) = "tcp://*:" ++ z_str n.
Proof.
  change ("tcp://*:" ++ z_str n) with ("tcp://" ++ "*" ++ ":" ++ z_str n).
  split; [|split].
  - rewrite endpoint_port_tcp by apply z_str_no_colon. apply py_int_z_str.
  - apply endpoint_host_tcp, z_str_no_colon.
  - rewrite bind_tcp, las_app. simpl (list_ascii_of_string (":" ++ z_str n)).
    change (list_ascii_of_string "*") with (["*"%char] : list ascii).
    rewrite rsplit_last by apply z_str_no_colon.
    rewrite string_of_list_ascii_of_string, py_int_z_str. reflexivity.
Qed.

(** [bind_endpoint_for_public] applied twice is applied once. *)
Theorem bind_endpoint_idempotent (e : string) :
  bind_endpoint_for_public (bind_endpoint_for_public e) = bind_endpoint_for_public e.
Proof.
  destruct (bind_cases e) as [E|[n [E _]]]; rewrite E; [exact E|]. apply bound_all_port.
Qed.

End EndpointExtras.

Section WidgetExtras.
Local Open Scope string_scope.

Lemma strip_ends (c d : ascii) (l : list ascii) :
  is_py_space c = false -> is_py_space d = false ->
  strip (c :: l ++ [d])%list = (c :: l ++ [d])%list.
Proof.
  intros Hc Hd. unfold strip.
  replace (drop_spaces (c :: l ++ [d])%list) with (c :: l ++ [d])%list
    by (simpl; rewrite Hc; reflexivity).
  change (c :: l ++ [d])%list with ((c :: l) ++ [d])%list.
  rewrite rev_app_distr. simpl (rev [d]). cbn [app drop_spaces]. rewrite Hd.
  change (d :: rev (c :: l))%list with ([d] ++ rev (c :: l))%list.
  rewrite rev_app_distr, rev_involutive. reflexivity.
Qed.

Lemma default_public_las (p : platform) :
  list_ascii_of_string (default_endpoint p true) =
  ("t"%char :: list_ascii_of_string ("cp://" ++ preferred_ip p ++ ":555") ++ ["6"%char])%list.
Proof.
  unfold default_endpoint. cbv iota beta. change (z_str DEFAULT_TCP_PORT) with "5556".
  rewrite !las_app. cbn [list_ascii_of_string append app].
  rewrite <- app_assoc. reflexivity.
Qed.

Lemma strip_str_default (p : platform) (b : bool) :
  strip_str (default_endpoint p b) = default_endpoint p b.
Proof.
  destruct b.
  - unfold strip_str. rewrite default_public_las, strip_ends by reflexivity.
    rewrite <- default_public_las. apply string_of_list_ascii_of_string.
  - unfold default_endpoint. destruct (String.eqb (os_name p) "nt"); vm_compute; reflexivity.
Qed.

Lemma prefix_default_public (p : platform) :
  String.prefix "tcp://" (default_endpoint p true) = true.
Proof. unfold default_endpoint. cbv iota beta. apply prefix_tcp. Qed.

Lemma default_nonempty (p : platform) (b : bool) :
  String.eqb (default_endpoint p b) "" = false.
Proof.
  destruct b; unfold default_endpoint; cbv iota beta; [reflexivity|].
  destruct (String.eqb (os_name p) "nt"); reflexivity.
Qed.

Lemma default_public_port (p : platform) :
  endpoint_port (default_endpoint p true) = Some 5556%Z.
Proof.
  unfold default_endpoint. cbv iota beta. change (z_str DEFAULT_TCP_PORT) with "5556".
  rewrite endpoint_port_tcp by reflexivity. reflexivity.
Qed.

Lemma bind_default_public (p : platform) :
  binds_all_interfaces (bind_endpoint_for_public (default_endpoint p true)) 5556 /\
  String.prefix "tcp://" (bind_endpoint_for_public (default_endpoint p true)) = true.
Proof.
  unfold default_endpoint. cbv iota beta. change (z_str DEFAULT_TCP_PORT) with "5556".
  rewrite bind_tcp, las_app. simpl (list_ascii_of_string (":" ++ "5556")).
  rewrite rsplit_last by reflexivity. rewrite !string_of_list_ascii_of_string.
  change (py_int (string_of_list_ascii ["5"%char; "5"%char; "5"%char; "6"%char])) with (Some 5556%Z).
  cbv iota beta.
  destruct (String.eqb (preferred_ip p) "*" || String.eqb (preferred_ip p) "0.0.0.0") eqn:Eh.
  - unfold binds_all_interfaces.
    rewrite endpoint_port_tcp, endpoint_host_tcp by reflexivity.
    split; [split; [reflexivity|]|apply prefix_tcp].
    apply orb_true_iff in Eh as [E|E]; apply String.eqb_eq in E; rewrite E; auto.
  - destruct (bound_all_port 5556) as (Hp & Hh & _).
    split; [split; [exact Hp|left; exact Hh]|reflexivity].
Qed.

Lemma on_start_auto (p : platform) (st : wstate) :
  w_text st = default_endpoint p (w_public st) ->
  on_start p st =
  (if w_public st then bind_endpoint_for_public (default_endpoint p true)
   else default_endpoint p false, st).
Proof.
  intros Ht. unfold on_start, resolve_endpoint_for_worker. rewrite Ht, strip_str_default.
  destruct (w_public st) eqn:Hp; cbn [negb].
  - rewrite prefix_default_public. unfold endpoint_or_default.
    destruct (bind_default_public p) as [_ Hx].
    destruct (prefix_split _ _ Hx) as [r Hr]. rewrite Hr. reflexivity.
  - unfold endpoint_or_default. rewrite default_nonempty. reflexivity.
Qed.

Lemma widget_step_auto (p : platform) (st : wstate) (ev : wevent) :
  (forall s, ev <> WEdit s) ->
  w_text st = default_endpoint p (w_public st) -> w_last_auto st = w_text st ->
  w_text (widget_step p st ev) = default_endpoint p (w_public (widget_step p st ev)) /\
  w_last_auto (widget_step p st ev) = w_text (widget_step p st ev).
Proof.
  intros He Ht Hl. destruct ev as [b|s|].
  - cbn [widget_step]. unfold on_public_toggled. cbn [w_text w_last_auto w_public].
    rewrite Hl, Ht, strip_str_default, String.eqb_refl. auto.
  - exfalso. exact (He s eq_refl).
  - cbn [widget_step]. rewrite (on_start_auto p st Ht). auto.
Qed.

Lemma widget_run_auto (p : platform) (evs : list wevent) :
  Forall (fun ev => forall s, ev <> WEdit s) evs ->
  w_text (widget_run p (widget_init p) evs) =
    default_endpoint p (w_public (widget_run p (widget_init p) evs)) /\
  w_last_auto (widget_run p (widget_init p) evs) = w_text (widget_run p (widget_init p) evs).
Proof.
  intros H. assert (H0 : w_text (widget_init p) = default_endpoint p (w_public (widget_init p)) /\
                         w_last_auto (widget_init p) = w_text (widget_init p)) by auto.
  revert H0. generalize (widget_init p) as st.
  induction H as [|ev evs Hev _ IH]; intros st [Ht Hl]; [auto|].
  apply IH, widget_step_auto; assumption.
Qed.

(** [_on_start] with public checked always gives the worker a tcp endpoint;
    when the field does not hold a tcp endpoint, the worker binds every
    interface on port 5556 and the field is reset to the public default. *)
Theorem start_public_binds_all_interfaces (p : platform) (st : wstate)
  (Hpub : w_public st = true) :
  endpoint_family (fst (on_start p st)) = FamNetwork /\
  (String.prefix "tcp://" (strip_str (w_text st)) = false ->
   binds_all_interfaces (fst (on_start p st)) 5556 /\
   w_text (snd (on_start p st)) = default_endpoint p true /\
   w_last_auto (snd (on_start p st)) = default_endpoint p true).
Proof.
  assert (Hx : forall x, String.prefix "tcp://" x = true ->
                 endpoint_or_default p (Some x) = x /\ endpoint_family x = FamNetwork).
  { intros x Hx. destruct (prefix_split _ _ Hx) as [r ->].
    unfold endpoint_family. rewrite prefix_tcp. auto. }
  unfold on_start, resolve_endpoint_for_worker. rewrite Hpub. cbn [negb].
  destruct (String.prefix "tcp://" (strip_str (w_text st))) eqn:Ht.
  - split; [|discriminate]. cbn [fst].
    assert (Hb : String.prefix "tcp://" (bind_endpoint_for_public (strip_str (w_text st))) = true).
    { destruct (bind_cases (strip_str (w_text st))) as [E|[n [E _]]]; rewrite E;
        [exact Ht|reflexivity]. }
    rewrite (proj1 (Hx _ Hb)). apply (proj2 (Hx _ Hb)).
  - destruct (bind_default_public p) as [Hall Hb]. cbn [fst snd w_text w_last_auto].
    rewrite (proj1 (Hx _ Hb)). split; [apply (proj2 (Hx _ Hb))|]. auto.
Qed.

(** The receiver widget, as long as the user never edits the endpoint field:
    the field always shows the default endpoint for the checkbox's state, and
    it is the remembered automatic value. *)
Theorem widget_field_follows_checkbox (p : platform) (evs : list wevent)
  (Hno_edit : Forall (fun ev => forall s, ev <> WEdit s) evs) :
  w_text (widget_run p (widget_init p) evs) =
    default_endpoint p (w_public (widget_run p (widget_init p) evs)) /\
  w_last_auto (widget_run p (widget_init p) evs) = w_text (widget_run p (widget_init p) evs).
Proof. apply widget_run_auto, Hno_edit. Qed.

(** The receiver widget without edits: when public, the listener binds every
    interface on port 5556 and the copied endpoint is the public default,
    with port 5556; otherwise listener and copied endpoint are the default
    local endpoint that a sender uses when given none. *)
Theorem widget_listener_meets_sender (p : platform) (evs : list wevent)
  (Hno_edit : Forall (fun ev => forall s, ev <> WEdit s) evs) :
  let st := widget_run p (widget_init p) evs in
  if w_public st
  then binds_all_interfaces (fst (on_start p st)) 5556 /\
       copy_endpoint st = default_endpoint p true /\
       endpoint_port (copy_endpoint st) = Some 5556%Z
  else fst (on_start p st) = endpoint_or_default p None /\
       copy_endpoint st = endpoint_or_default p None.
Proof.
  cbv zeta. destruct (widget_run_auto p evs Hno_edit) as [Ht _].
  rewrite (on_start_auto _ _ Ht). unfold copy_endpoint. rewrite Ht, strip_str_default.
  destruct (w_public (widget_run p (widget_init p) evs)); cbn [fst].
  - split; [apply bind_default_public|]. split; [reflexivity|apply default_public_port].
  - auto.
Qed.

End WidgetExtras.

Section ReceiverExtras.
Context {F : Type}.
Local Open Scope list_scope.

Lemma dict_get_opt_self {T} k (enc : T -> json F) x :
  dict_get k (opt_field k enc x) = option_map enc x.
Proof. destruct x; simpl; [rewrite String.eqb_refl|]; reflexivity. Qed.

Lemma match_opt_id {T} (x : option T) :
  match x with Some v => Some v | None => None end = x.
Proof. destruct x; reflexivity. Qed.

Lemma opt_kw_map {T} k (enc : T -> json F) x :
  match option_map enc x with Some v => [(k, KwVal v)] | None => [] end = opt_kw k enc x.
Proof. destruct x; reflexivity. Qed.

Lemma float_shape_floats (sok : string -> bool) (l : list F) :
  float_shape sok (floats_json l) = Some [List.length l].
Proof.
  destruct l as [|x l]; [reflexivity|]. unfold floats_json.
  cbn [map float_shape]. rewrite map_map.
  replace (forallb _ _) with true; [cbn [List.length]; rewrite length_map; reflexivity|].
  symmetry. apply forallb_forall. intros s Hs. apply in_map_iff in Hs as (y & <- & _). reflexivity.
Qed.

Lemma float_shape_matrix (sok : string -> bool) (r0 : list F) (m : list (list F)) :
  rectangular (r0 :: m) ->
  float_shape sok (matrix_json (r0 :: m)) = Some [S (List.length m); List.length r0].
Proof.
  intros H. unfold matrix_json. cbn [map float_shape]. rewrite float_shape_floats, map_map.
  replace (forallb _ _) with true; [cbn [List.length]; rewrite length_map; reflexivity|].
  symmetry. apply forallb_forall. intros s Hs. apply in_map_iff in Hs as (r & <- & Hr).
  rewrite float_shape_floats. cbn in H. apply Forall_inv_tail in H.
  rewrite (proj1 (Forall_forall _ _) H r Hr).
  destruct (list_eq_dec Nat.eq_dec _ _) as [_|N]; [reflexivity|]. exfalso; apply N; reflexivity.
Qed.

(** A frame sent by [_send_numpy] with a name, decoded by the listener and
    handled by [_on_received]: the layer gets that name; labels get the
    affine (only if square, of side at least 2), scale, translate, opacity and
    blending; an image gets those and the colormap, contrast limits and rgb,
    and is autocontrasted only when asked, without contrast limits and not rgb. *)
Theorem sent_header_to_layer
  (dumps : json F -> list byte) (loads : list byte -> option (json F))
  (Hjson : forall j, loads (dumps j) = Some j)
  (float_truthy : F -> bool) (str_float_ok : string -> bool)
  (a : ndarray) (name : string) (o : display F) (autocontrast : bool)
  (msg : list (list byte))
  (Hwf : well_formed a)
  (Hsend : send_numpy dumps a (Some name) o = Ok msg) :
  exists b fs,
    decode_message loads msg = Ok (b, JObj fs) /\
    on_received float_truthy str_float_ok autocontrast fs =
    (let kw := affine_kw (affine o) ++ opt_kw "scale" floats_json (scale o)
               ++ opt_kw "translate" floats_json (translate o)
               ++ opt_kw "opacity" JFloat (opacity o)
               ++ opt_kw "blending" JStr (blending o) in
     if is_labels o then AddLabels (JStr name) kw
     else AddImage (JStr name)
            (kw ++ opt_kw "colormap" JStr (colormap o)
                ++ opt_kw "contrast_limits" floats_json (contrast_limits o)
                ++ opt_kw "rgb" JBool (rgb o))
            (autocontrast
             && match contrast_limits o with None => true | Some _ => false end
             && match rgb o with Some true => false | _ => true end)).
Proof.
  destruct a as [sh d lay data]. destruct Hwf as (Hlen & Hall & Hdim & Hfit). simpl in *.
  assert (Haff : forall m, affine o = Some m -> rectangular m).
  { intros m Hm. unfold send_numpy in Hsend. rewrite Hm in Hsend.
    destruct (affine_tolist_cases m) as [[R _]|[_ E]]; [exact R|].
    rewrite E in Hsend. discriminate. }
  assert (Hm : (match affine o with
                | Some m => m' <- affine_tolist m ;; Ok (Some m')
                | None => Ok None end) = Ok (affine o)).
  { destruct (affine o) as [m|] eqn:E; [|reflexivity].
    rewrite affine_tolist_rect by (apply Haff; reflexivity). reflexivity. }
  set (a' := if c_contiguous (mk_ndarray sh d lay data) || f_contiguous (mk_ndarray sh d lay data)
             then mk_ndarray sh d lay data else ascontiguousarray (mk_ndarray sh d lay data)).
  assert (Ha' : a_shape a' = sh /\ a_dtype a' = d /\ a_data a' = data).
  { subst a'. destruct lay; unfold ascontiguousarray, f_contiguous, c_contiguous;
      cbn [a_layout a_shape]; rewrite ?orb_true_r;
      destruct (trivial_shape sh); cbn [orb a_shape a_dtype a_data a_layout]; auto. }
  destruct Ha' as (Hs & Hd & Hdata).
  unfold send_numpy in Hsend. fold a' in Hsend. rewrite Hm in Hsend. cbn [rbind] in Hsend.
  injection Hsend as <-.
  unfold decode_message. rewrite Hjson. cbn [app].
  rewrite Hs, Hd, Hdata.
  rewrite (from_bytes_encoded sh d data (f_contiguous a') _ Hlen Hall Hdim Hfit).
  cbn [rbind]. eexists _, _. split; [reflexivity|].
  unfold on_received, get_default, copy_fields. cbn [flat_map].
  cbn -[app opt_field float_shape].
  repeat rewrite dict_get_app.
  rewrite ?dict_get_opt_self.
  rewrite ?dict_get_opt_other by reflexivity.
  cbn -[app opt_field float_shape].
  rewrite ?match_opt_id, ?opt_kw_map, !app_nil_r.
  destruct (affine o) as [[|r0 m]|] eqn:Ea; cbn [option_map affine_kw].
  2: { rewrite (float_shape_matrix str_float_ok r0 m (Haff _ eq_refl)).
       cbn [List.length]. destruct (Nat.eqb_spec (S (List.length m)) (List.length r0)) as [E|E].
       - rewrite <- E.
         destruct (is_labels o), (contrast_limits o), (rgb o) as [[|]|];
           destruct (List.length m); reflexivity.
       -
         destruct (is_labels o), (contrast_limits o), (rgb o) as [[|]|]; reflexivity. }
  all: destruct (is_labels o), (contrast_limits o), (rgb o) as [[|]|]; reflexivity.
Qed.
Lemma in_copy_fields (fs : list (string * json F)) keys k kv :
  In (k, kv) (copy_fields fs keys) ->
  In k keys /\ exists v, kv = KwVal v /\ dict_get k fs = Some v.
Proof.
  unfold copy_fields. intros H. apply in_flat_map in H as (k' & Hk' & H).
  destruct (dict_get k' fs) as [v|] eqn:E; [|contradiction].
  destruct H as [H|[]]. injection H as <- <-. split; [exact Hk'|]. eauto.
Qed.

(** [_on_received] on any header: every keyword passed to napari comes from
    the header with its value; labels never get an image-only keyword; an
    affine is passed only when it is a square matrix of side at least 2. *)
Theorem on_received_only_header_keywords
  (float_truthy : F -> bool) (str_float_ok : string -> bool) (autocontrast : bool)
  (fs : list (string * json F)) :
  let c := on_received float_truthy str_float_ok autocontrast fs in
  forall k kv, In (k, kv) (layer_kwargs c) ->
    In k (allowed_keys c) /\
    match kv with
    | KwVal v => dict_get k fs = Some v
    | KwAffine j sh =>
        k = "affine"%string /\ dict_get k fs = Some j /\
        exists r, sh = [r; r] /\ 2 <= r /\ float_shape str_float_ok j = Some [r; r]
    end.
Proof.
  cbv zeta. intros k kv. unfold on_received.
  set (aff := match dict_get "affine" fs with
              | Some j => match float_shape str_float_ok j with
                          | Some [r; c] => if Nat.eqb r c && Nat.leb 2 r
                                           then [("affine"%string, KwAffine j [r; c])] else []
                          | _ => [] end
              | None => [] end).
  assert (Haff : In (k, kv) aff ->
                 k = "affine"%string /\
                 match kv with
                 | KwVal v => dict_get k fs = Some v
                 | KwAffine j sh =>
                     k = "affine"%string /\ dict_get k fs = Some j /\
                     exists r, sh = [r; r] /\ 2 <= r /\ float_shape str_float_ok j = Some [r; r]
                 end).
  { subst aff. intros H. destruct (dict_get "affine" fs) as [j|] eqn:Ej; [|contradiction].
    destruct (float_shape str_float_ok j) as [[|r [|c [|? ?]]]|] eqn:Es; try contradiction.
    destruct (Nat.eqb r c && Nat.leb 2 r) eqn:Eb; [|contradiction].
    destruct H as [H|[]]. injection H as <- <-.
    apply andb_true_iff in Eb as [Erc Er]. apply Nat.eqb_eq in Erc. apply Nat.leb_le in Er.
    subst c. split; [reflexivity|]. split; [reflexivity|]. split; [exact Ej|].
    exists r. auto. }
  assert (Hcopy : forall keys, In (k, kv) (copy_fields fs keys) ->
                  In k keys /\ match kv with
                               | KwVal v => dict_get k fs = Some v
                               | KwAffine _ _ => False end).
  { intros keys H. apply in_copy_fields in H as (Hk & v & -> & Hv). auto. }
  destruct (py_truthy float_truthy (get_default "is_labels" fs (JBool false)));
    cbn [layer_kwargs allowed_keys]; intros H;
    repeat match goal with
           | H : In _ (_ ++ _) |- _ => apply in_app_or in H; destruct H as [H|H]
           end;
    first [ destruct (Haff H) as [-> Hv]; split; [left; reflexivity|exact Hv]
          | destruct (Hcopy _ H) as [Hk Hv]; split; [simpl in Hk |- *; tauto|destruct kv; [contradiction|exact Hv]] ].
Qed.

End ReceiverExtras.

(** * Witnesses of the further properties *)

(** A 0-d uint8 array, outside the ranks 1 to 4 of the documented
    contract, with every optional field set: it is sent and decoded back. *)
Lemma send_numpy_roundtrip_any_witness :
  exists msg b meta,
    send_numpy WireCodec.dumps (mk_ndarray [] DUInt8 LC [[x07]]) None ex_display = Ok msg /\
    decode_message WireCodec.loads msg = Ok (b, meta) /\
    same_array (mk_ndarray [] DUInt8 LC [[x07]]) b /\ header_keeps meta None ex_display.
Proof.
  apply (send_numpy_roundtrip_any WireCodec.dumps WireCodec.loads WireCodecFacts.loads_dumps).
  - split; [reflexivity|repeat constructor].
  - intros m Hm. injection Hm as <-. repeat constructor.
Defined.

(** The header keys of the frame of a 3-element uint8 array named "x". *)
Lemma send_numpy_header_keys_witness :
  exists msg,
    send_numpy WireCodec.dumps ex_arr3 (Some "x") ex_display = Ok msg /\
    exists fs,
      msg = [WireCodec.dumps (JObj fs); List.concat (a_data ex_arr3)] /\
      map fst fs =
        (["shape"; "dtype"; "order"; "is_labels"] ++ opt_key "name" (Some "x") ++
         opt_key "colormap" (colormap ex_display) ++
         opt_key "contrast_limits" (contrast_limits ex_display) ++
         opt_key "rgb" (rgb ex_display) ++ opt_key "affine" (affine ex_display) ++
         opt_key "scale" (scale ex_display) ++ opt_key "translate" (translate ex_display) ++
         opt_key "opacity" (opacity ex_display) ++ opt_key "blending" (blending ex_display))%list.
Proof.
  eexists. split; [reflexivity|].
  apply (send_numpy_header_keys WireCodec.dumps ex_arr3 (Some "x") ex_display).
  reflexivity.
Defined.

(** A dict holding one array under key "a": one frame, named "array[a]". *)
Lemma send_structure_sends_every_leaf_witness :
  exists m,
    send WireCodec.dumps (fun _ => ex_arr) []
      (VDict [(KStr "a", VArray ex_arr)]) None ex_display = ([m], Ok tt).
Proof.
  eexists.
  apply (send_structure_sends_every_leaf WireCodec.dumps (fun _ => ex_arr) []
           (VDict [(KStr "a", VArray ex_arr)]) None ex_display [_]).
  - exact I.
  - constructor; [|constructor]. exists ex_arr. split; reflexivity.
Defined.

(** An object with [shape] and [dtype] whose [np.asarray] is an object
    array: the failure is the TypeError of the object-array check. *)
Lemma to_numpy_arraylike_failure_witness :
  exists o, @VObj unit ex_obj_object = VObj o /\
    ((o_asarray o = AsObject /\ TypeError = TypeError) \/ o_asarray o = AsRaise TypeError).
Proof.
  apply (to_numpy_arraylike_failure (fun _ => ex_arr) (VObj ex_obj_object) TypeError).
  - reflexivity.
  - reflexivity.
Defined.

(** Three bytes are not a whole number of uint16 elements: ValueError. *)
Lemma from_bytes_partial_element_witness :
  from_bytes [x01; x02; x03]
    (@JObj unit [("shape", JArr [JInt 1%Z]); ("dtype", JStr "uint16")]) = Err ValueError.
Proof.
  apply (from_bytes_partial_element [x01; x02; x03] _ [JInt 1%Z] DUInt16).
  - reflexivity.
  - reflexivity.
  - simpl. discriminate.
Defined.

(** A listener that sees a timeout and an undecodable message, then a stop
    request, a timeout and a second stop request. *)
Lemma run_stop_closes_witness :
  run WireCodec.loads (start "ipc:///tmp/x" None)
    [EvTimeout; EvReady (RecvMsg ex_bad_frame); EvStop; EvTimeout; EvStop] =
  mk_lstate Closed
    (l_received (run WireCodec.loads (start "ipc:///tmp/x" None)
                   [EvTimeout; EvReady (RecvMsg ex_bad_frame)]))
    (l_errors (run WireCodec.loads (start "ipc:///tmp/x" None)
                 [EvTimeout; EvReady (RecvMsg ex_bad_frame)]))
    (l_status (run WireCodec.loads (start "ipc:///tmp/x" None)
                 [EvTimeout; EvReady (RecvMsg ex_bad_frame)]) ++
     [stopping_msg; "Listener stopped."] ++ repeat stopping_msg (stops [EvTimeout; EvStop]))%list.
Proof.
  apply (run_stop_closes WireCodec.loads (start "ipc:///tmp/x" None)
           [EvTimeout; EvReady (RecvMsg ex_bad_frame)] [EvTimeout; EvStop]).
  - reflexivity.
  - repeat constructor; try discriminate; intros e He; discriminate He.
Defined.

(** The same listener when the poller raises instead. *)
Lemma run_poll_failure_closes_witness :
  run WireCodec.loads (start "ipc:///tmp/x" None)
    [EvTimeout; EvReady (RecvMsg ex_bad_frame); EvPollFail TransportError; EvTimeout] =
  mk_lstate Closed
    (l_received (run WireCodec.loads (start "ipc:///tmp/x" None)
                   [EvTimeout; EvReady (RecvMsg ex_bad_frame)]))
    (l_errors (run WireCodec.loads (start "ipc:///tmp/x" None)
                 [EvTimeout; EvReady (RecvMsg ex_bad_frame)]) ++ [TransportError])%list
    (l_status (run WireCodec.loads (start "ipc:///tmp/x" None)
                 [EvTimeout; EvReady (RecvMsg ex_bad_frame)]) ++ ["Listener stopped."] ++
     repeat stopping_msg (stops [EvTimeout]))%list.
Proof.
  apply (run_poll_failure_closes WireCodec.loads (start "ipc:///tmp/x" None)
           [EvTimeout; EvReady (RecvMsg ex_bad_frame)] [EvTimeout] TransportError).
  - reflexivity.
  - repeat constructor; try discriminate; intros e He; discriminate He.
Defined.

(** A valid frame, then an undecodable one: only the first is emitted. *)
Lemma run_received_in_order_witness :
  l_received (run WireCodec.loads (start "ipc:///tmp/x" None)
                [EvReady (RecvMsg [WireCodec.dumps ex_hdr; ex_payload]);
                 EvReady (RecvMsg ex_bad_frame)]) =
  (l_received (@start unit "ipc:///tmp/x" None) ++
   flat_map (tick_received WireCodec.loads)
     [EvReady (RecvMsg [WireCodec.dumps ex_hdr; ex_payload]);
      EvReady (RecvMsg ex_bad_frame)])%list.
Proof.
  apply run_received_in_order.
  - reflexivity.
  - repeat constructor; try discriminate; intros e He; discriminate He.
Defined.

(** A Linux host whose first non-loopback address is 192.168.0.4, with the
    field showing an ipc endpoint while public is checked. *)
Lemma start_public_binds_all_interfaces_witness :
  endpoint_family
    (fst (on_start (mk_platform "posix" (Some ["127.0.0.1"; "192.168.0.4"]))
            (mk_wstate "ipc:///tmp/x" "ipc:///tmp/x" true))) = FamNetwork /\
  (String.prefix "tcp://" (strip_str "ipc:///tmp/x") = false ->
   binds_all_interfaces
     (fst (on_start (mk_platform "posix" (Some ["127.0.0.1"; "192.168.0.4"]))
             (mk_wstate "ipc:///tmp/x" "ipc:///tmp/x" true))) 5556 /\
   w_text (snd (on_start (mk_platform "posix" (Some ["127.0.0.1"; "192.168.0.4"]))
                  (mk_wstate "ipc:///tmp/x" "ipc:///tmp/x" true))) =
     default_endpoint (mk_platform "posix" (Some ["127.0.0.1"; "192.168.0.4"])) true /\
   w_last_auto (snd (on_start (mk_platform "posix" (Some ["127.0.0.1"; "192.168.0.4"]))
                       (mk_wstate "ipc:///tmp/x" "ipc:///tmp/x" true))) =
     default_endpoint (mk_platform "posix" (Some ["127.0.0.1"; "192.168.0.4"])) true).
Proof.
  apply (start_public_binds_all_interfaces
           (mk_platform "posix" (Some ["127.0.0.1"; "192.168.0.4"]))
           (mk_wstate "ipc:///tmp/x" "ipc:///tmp/x" true)).
  reflexivity.
Defined.

(** Checking public, starting, then unchecking it. *)
Lemma widget_field_follows_checkbox_witness :
  w_text (widget_run (mk_platform "posix" (Some ["192.168.0.4"]))
            (widget_init (mk_platform "posix" (Some ["192.168.0.4"])))
            [WToggle true; WStart; WToggle false]) =
    default_endpoint (mk_platform "posix" (Some ["192.168.0.4"]))
      (w_public (widget_run (mk_platform "posix" (Some ["192.168.0.4"]))
                   (widget_init (mk_platform "posix" (Some ["192.168.0.4"])))
                   [WToggle true; WStart; WToggle false])) /\
  w_last_auto (widget_run (mk_platform "posix" (Some ["192.168.0.4"]))
                 (widget_init (mk_platform "posix" (Some ["192.168.0.4"])))
                 [WToggle true; WStart; WToggle false]) =
  w_text (widget_run (mk_platform "posix" (Some ["192.168.0.4"]))
            (widget_init (mk_platform "posix" (Some ["192.168.0.4"])))
            [WToggle true; WStart; WToggle false]).
Proof.
  apply widget_field_follows_checkbox.
  repeat constructor; intros s Hs; discriminate Hs.
Defined.

(** Checking public and starting on Windows. *)
Lemma widget_listener_meets_sender_witness :
  let st := widget_run (mk_platform "nt" None) (widget_init (mk_platform "nt" None))
              [WToggle true; WStart] in
  if w_public st
  then binds_all_interfaces (fst (on_start (mk_platform "nt" None) st)) 5556 /\
       copy_endpoint st = default_endpoint (mk_platform "nt" None) true /\
       endpoint_port (copy_endpoint st) = Some 5556%Z
  else fst (on_start (mk_platform "nt" None) st) = endpoint_or_default (mk_platform "nt" None) None /\
       copy_endpoint st = endpoint_or_default (mk_platform "nt" None) None.
Proof.
  apply widget_listener_meets_sender.
  repeat constructor; intros s Hs; discriminate Hs.
Defined.

(** The example array and display settings, named "img", as an image layer. *)
Lemma sent_header_to_layer_witness :
  exists msg,
    send_numpy WireCodec.dumps ex_arr (Some "img") ex_display = Ok msg /\
    exists b fs,
      decode_message WireCodec.loads msg = Ok (b, JObj fs) /\
      on_received (fun _ => true) (fun _ => true) true fs =
      (let kw := (affine_kw (affine ex_display) ++ opt_kw "scale" floats_json (scale ex_display)
                 ++ opt_kw "translate" floats_json (translate ex_display)
                 ++ opt_kw "opacity" JFloat (opacity ex_display)
                 ++ opt_kw "blending" JStr (blending ex_display))%list in
       if is_labels ex_display then AddLabels (JStr "img") kw
       else AddImage (JStr "img")
              (kw ++ opt_kw "colormap" JStr (colormap ex_display)
                  ++ opt_kw "contrast_limits" floats_json (contrast_limits ex_display)
                  ++ opt_kw "rgb" JBool (rgb ex_display))%list
              (true
               && match contrast_limits ex_display with None => true | Some _ => false end
               && match rgb ex_display with Some true => false | _ => true end)).
Proof.
  eexists. split; [reflexivity|].
  apply (sent_header_to_layer WireCodec.dumps WireCodec.loads WireCodecFacts.loads_dumps
           (fun _ => true) (fun _ => true) ex_arr "img" ex_display true).
  - split; [reflexivity|repeat constructor].
  - reflexivity.
Defined.

(** A labels header with a colormap and a 2x2 affine: the affine is passed,
    as a 2x2 matrix, and the colormap is not. *)
Lemma on_received_only_header_keywords_witness :
  let c := on_received (fun _ => true) (fun _ => true) true
             [("is_labels", JBool true); ("colormap", JStr "gray");
              ("affine", matrix_json [[tt; tt]; [tt; tt]])] in
  In "affine" (allowed_keys c) /\
  ("affine" = "affine" /\
   dict_get "affine" [("is_labels", JBool true); ("colormap", JStr "gray");
                      ("affine", matrix_json [[tt; tt]; [tt; tt]])]
     = Some (matrix_json [[tt; tt]; [tt; tt]]) /\
   exists r, [2; 2] = [r; r] /\ 2 <= r /\
     float_shape (fun _ => true) (matrix_json [[tt; tt]; [tt; tt]]) = Some [r; r]).
Proof.
  apply (on_received_only_header_keywords (fun _ => true) (fun _ => true) true
           [("is_labels", JBool true); ("colormap", JStr "gray");
            ("affine", matrix_json [[tt; tt]; [tt; tt]])]
           "affine" (KwAffine (matrix_json [[tt; tt]; [tt; tt]]) [2; 2])).
  vm_compute. left. reflexivity.
Defined.
